(** * Clocktopus: the session store and the idle/lock monitor

    Shallow embedding of
    - [src/unnamed/part_000] ([lib/db.ts]): the [sessions] table of the SQLite
      database and the statements [logSessionStart], [completeLatestSession],
      [getLatestSession] and [deleteOldSessions];
    - [src/unnamed/part_001] ([clockify.ts]): [Clockify.startTimer],
      [Clockify.stopTimer] and [Clockify.getActiveTimer], as far as they touch
      the remote timer and the store;
    - [src/unnamed/part_002] ([index.ts], command [monitor]): [stopTimerAndLog],
      [safeRestartTimerIfNeeded] and the decisions of the idle and lock pollers.

    Timestamps.  The code stores [new Date().toISOString()] strings in TEXT
    columns and compares them as text; for the years 0000-9999 that text order
    is the order of the underlying millisecond counts, so a timestamp is the
    millisecond count, a [Z].

    Session ids.  [uuidv4()] is modelled by a counter of the world that only
    grows, so a generated id is fresh. *)

From Stdlib Require Import List ZArith String Bool Lia.
Import ListNotations.
Open Scope Z_scope.

(* ------------------------------------------------------------------ *)
(** ** The [sessions] table *)

(** A row of [sessions]; [SessionSchema] in [db.ts]. *)
Record session := mkSession {
  id : nat;
  projectId : string;
  description : string;
  startedAt : Z;
  completedAt : option Z;
  isAutoCompleted : Z;
  jiraTicket : option string
}.

(** The table, rows in table (insertion) order. *)
Definition store := list session.

(** Errors raised by the statements: the PRIMARY KEY violation of an INSERT
    and the [ZodError] of [SessionSchema.parse]. *)
Inductive db_error := SqliteConstraintPrimaryKey | ZodError.

Inductive result (A : Type) := Ok (a : A) | Err (e : db_error).
Arguments Ok {A} a.
Arguments Err {A} e.

Definition is_open (r : session) : bool :=
  match completedAt r with None => true | Some _ => false end.

Definition open_count (st : store) : nat := List.length (filter is_open st).

(** [ORDER BY startedAt DESC LIMIT 1]: a row with the greatest [startedAt].
    SQL leaves the order among equal keys open; the model takes the first such
    row in table order. *)
Fixpoint pick_latest (rows : list session) : option session :=
  match rows with
  | [] => None
  | r :: rest =>
      match pick_latest rest with
      | None => Some r
      | Some b => if startedAt r <? startedAt b then Some b else Some r
      end
  end.

(** [logSessionStart]: [INSERT INTO sessions (...) VALUES (?, ?, ?, ?, 0, ?)];
    [completedAt] is left NULL; a present [id] violates the PRIMARY KEY. *)
Definition logSessionStart (sid : nat) (projectId0 description0 : string)
    (startedAt0 : Z) (jiraTicket0 : option string) (st : store) : result store :=
  if existsb (fun r => Nat.eqb (id r) sid) st then Err SqliteConstraintPrimaryKey
  else Ok (st ++ [mkSession sid projectId0 description0 startedAt0 None 0 jiraTicket0]).

(** The row after [SET completedAt = ?, isAutoCompleted = ?]. *)
Definition close_row (completedAt0 : Z) (isAuto : bool) (r : session) : session :=
  mkSession (id r) (projectId r) (description r) (startedAt r)
    (Some completedAt0) (if isAuto then 1 else 0) (jiraTicket r).

(** [completeLatestSession]: [UPDATE sessions SET ... WHERE id = (SELECT id
    FROM sessions WHERE completedAt IS NULL ORDER BY startedAt DESC LIMIT 1)].
    With no open row the sub-select is NULL and [id = NULL] matches no row. *)
Definition completeLatestSession (completedAt0 : Z) (isAuto : bool) (st : store) : store :=
  match pick_latest (filter is_open st) with
  | None => st
  | Some s => map (fun r => if Nat.eqb (id r) (id s) then close_row completedAt0 isAuto r else r) st
  end.

(** [getLatestSession]: [SessionSchema.parse(stmt.get())]; on an empty table
    [stmt.get()] is [undefined], which the schema rejects. *)
Definition getLatestSession (st : store) : result session :=
  match pick_latest st with
  | None => Err ZodError
  | Some s => Ok s
  end.

(** The statement of [deleteOldSessions]: [DELETE FROM sessions WHERE
    startedAt < ?]; the function returns nothing ([unit]). *)
Definition delete_before (cutoff : Z) (st : store) : store * unit :=
  (filter (fun r => negb (startedAt r <? cutoff)) st, tt).

Definition ms_per_day : Z := 86400000.

(** [deleteOldSessions(days)], with [now] the clock reading of [new Date()].
    The code moves the date back in local time ([setDate]); the daylight-saving
    hour that this can add or remove is not modelled. *)
Definition deleteOldSessions (now days : Z) (st : store) : store * unit :=
  delete_before (now - days * ms_per_day) st.

(** The two mutating statements used for sessions, as operations on the store.
    A statement that throws leaves the table as it was. *)
Inductive store_op :=
| OpLogSessionStart (sid : nat) (p d : string) (t : Z) (j : option string)
| OpCompleteLatestSession (c : Z) (auto : bool).

Definition apply_op (st : store) (op : store_op) : store :=
  match op with
  | OpLogSessionStart sid p d t j =>
      match logSessionStart sid p d t j st with Ok st' => st' | Err _ => st end
  | OpCompleteLatestSession c a => completeLatestSession c a st
  end.

Definition run_ops (st : store) (ops : list store_op) : store :=
  fold_left apply_op ops st.

(** Operation discipline: every [logSessionStart] is issued when the store has
    no open session. *)
Fixpoint starts_when_closed (st : store) (ops : list store_op) : Prop :=
  match ops with
  | [] => True
  | op :: rest =>
      (match op with OpLogSessionStart _ _ _ _ _ => open_count st = 0%nat | _ => True end)
      /\ starts_when_closed (apply_op st op) rest
  end.

(* ------------------------------------------------------------------ *)
(** ** The world of the [monitor] command *)

(** Effects in the order they happen: a time entry created on Clockify
    (successful POST), the running entry ended (successful PATCH), a row
    inserted, the UPDATE of [completeLatestSession], a Jira worklog request. *)
Inductive event :=
| EvRemoteStart (p d : string)
| EvRemoteStop
| EvAppend (s : session)
| EvClose (c : Z) (auto : bool)
| EvJira (ticket : string) (seconds : Z).

Record world := mkWorld {
  w_store : store;
  w_remote : option (string * string);  (* the in-progress Clockify entry: project, description *)
  w_trace : list event;
  w_lastResumeAt : Z;                   (* [lastResumeAt] of [monitor] *)
  w_next_id : nat                       (* next [uuidv4()] *)
}.

(** How the HTTP calls of [Clockify] fare: [getUser], the POST of
    [startTimer], the PATCH of [stopTimer], the GET of [getActiveTimer]. *)
Record env := mkEnv {
  user_ok : bool;
  post_ok : bool;
  stop_ok : bool;
  active_ok : bool
}.

Definition set_store (st : store) (w : world) : world :=
  mkWorld st (w_remote w) (w_trace w) (w_lastResumeAt w) (w_next_id w).
Definition set_remote (r : option (string * string)) (w : world) : world :=
  mkWorld (w_store w) r (w_trace w) (w_lastResumeAt w) (w_next_id w).
Definition emit (e : event) (w : world) : world :=
  mkWorld (w_store w) (w_remote w) (w_trace w ++ [e]) (w_lastResumeAt w) (w_next_id w).
Definition set_lastResumeAt (t : Z) (w : world) : world :=
  mkWorld (w_store w) (w_remote w) (w_trace w) t (w_next_id w).
Definition bump_id (w : world) : world :=
  mkWorld (w_store w) (w_remote w) (w_trace w) (w_lastResumeAt w) (S (w_next_id w)).

(** [Clockify.getActiveTimer]: the in-progress entry, [null] on an HTTP error. *)
Definition getActiveTimer (e : env) (w : world) : option (string * string) :=
  if active_ok e then w_remote w else None.

(** [Clockify.stopTimer]: the PATCH ends the in-progress entry and returns it;
    with none running, or on an HTTP error, it returns [null]. *)
Definition stopTimer (e : env) (w : world) : world * option (string * string) :=
  if stop_ok e then
    match w_remote w with
    | Some entry => (emit EvRemoteStop (set_remote None w), Some entry)
    | None => (w, None)
    end
  else (w, None).

(** [completeLatestSession] run against the world's table. *)
Definition closeLatest (c : Z) (auto : bool) (w : world) : world :=
  emit (EvClose c auto) (set_store (completeLatestSession c auto (w_store w)) w).

(** [Math.round((completedAt - startedAt) / 1000)] on millisecond counts. *)
Definition round_seconds (ms : Z) : Z := (ms + 500) / 1000.

(** JavaScript truthiness of an optional string. *)
Definition truthy (o : option string) : bool :=
  match o with Some s => negb (String.eqb s "") | None => false end.

(** Outcome of an [async] function: its value, or the exception it rejects with. *)
Inductive outcome (A : Type) := Ret (a : A) | Throw (e : db_error).
Arguments Ret {A} a.
Arguments Throw {A} e.

(** [stopTimerAndLog(reason)].  [now] is the [new Date()] read right after
    [getActiveTimer] answered.  [stopJiraTimer] is best effort: its request is
    recorded, its failure is caught. *)
Definition stopTimerAndLog (e : env) (now : Z) (w : world) : world * outcome bool :=
  match getActiveTimer e w with
  | None => (w, Ret false)
  | Some _ =>
      let completedAt0 := now in
      match getLatestSession (w_store w) with
      | Err err => (w, Throw err)
      | Ok latest =>
          let '(w1, stoppedEntry) := stopTimer e w in
          match stoppedEntry with
          | None => (w1, Ret false)
          | Some _ =>
              let w2 := closeLatest completedAt0 true w1 in
              match jiraTicket latest with
              | Some ticket =>
                  if truthy (Some ticket) then
                    let secs := round_seconds (completedAt0 - startedAt latest) in
                    if 60 <=? secs then (emit (EvJira ticket secs) w2, Ret true)
                    else (w2, Ret true)
                  else (w2, Ret true)
              | None => (w2, Ret true)
              end
          end
      end
  end.

Definition RESUME_COOLDOWN_MS : Z := 10000.
Definition TWO_HOURS_MS : Z := 2 * 60 * 60 * 1000.
Definition IDLE_THRESHOLD_SECONDS : Z := 300.

(** [safeRestartTimerIfNeeded] cut at its [await]s (with the body of
    [Clockify.startTimer] inlined): each phase is the code that runs when the
    previous [await] resumes.
    - [REntry]: cooldown test, then [await sleep(800)];
    - [RSleeping]: [getLatestSession()], then [await getActiveTimer];
    - [RAwaitActive s]: the active-entry and eligibility tests, then
      [startTimer]'s [await getUser()];
    - [RAwaitUser s]: [startedAt], [uuidv4()], then [await] the POST;
    - [RAwaitPost s t sid]: [logSessionStart], then [await getProjectById];
    - [RAwaitProject]: the notification, [startTimer] returns, [lastResumeAt]. *)
Inductive rphase :=
| REntry
| RSleeping
| RAwaitActive (s : session)
| RAwaitUser (s : session)
| RAwaitPost (s : session) (startedAt0 : Z) (sid : nat)
| RAwaitProject
| RDone.

(** [latestSession.isAutoCompleted && completedAt > twoHoursAgo && !!latestSession.projectId] *)
Definition eligible (s : session) (twoHoursAgo : Z) : bool :=
  let completedAtMs := match completedAt s with Some c => c | None => 0 end in
  negb (isAutoCompleted s =? 0) && (twoHoursAgo <? completedAtMs)
  && negb (String.eqb (projectId s) "").

(** One phase, run at clock reading [t] ([Date.now()] / [new Date()]). *)
Definition restart_step (e : env) (t : Z) (w : world) (ph : rphase) : world * rphase :=
  match ph with
  | REntry =>
      if t - w_lastResumeAt w <? RESUME_COOLDOWN_MS then (w, RDone) else (w, RSleeping)
  | RSleeping =>
      match getLatestSession (w_store w) with
      | Err _ => (w, RDone)          (* the promise rejects; the poller catches it *)
      | Ok s => (w, RAwaitActive s)
      end
  | RAwaitActive s =>
      match getActiveTimer e w with
      | Some _ => (w, RDone)
      | None =>
          if eligible s (t - TWO_HOURS_MS) then (w, RAwaitUser s) else (w, RDone)
      end
  | RAwaitUser s =>
      if user_ok e then (bump_id w, RAwaitPost s t (w_next_id w))
      else (set_lastResumeAt t w, RDone)      (* [startTimer] returns [null] *)
  | RAwaitPost s st0 sid =>
      if post_ok e then
        let w1 := emit (EvRemoteStart (projectId s) (description s))
                    (set_remote (Some (projectId s, description s)) w) in
        match logSessionStart sid (projectId s) (description s) st0 None (w_store w1) with
        | Ok st' =>
            let row := mkSession sid (projectId s) (description s) st0 None 0 None in
            (emit (EvAppend row) (set_store st' w1), RAwaitProject)
        | Err _ => (set_lastResumeAt t w1, RDone)   (* caught in [startTimer] *)
        end
      else (set_lastResumeAt t w, RDone)            (* caught in [startTimer] *)
  | RAwaitProject => (set_lastResumeAt t w, RDone)
  | RDone => (w, RDone)
  end.

(** One call of [safeRestartTimerIfNeeded] run alone, its phases at the clock
    readings [ts]. *)
Fixpoint run_restart (e : env) (w : world) (ph : rphase) (ts : list Z) : world * rphase :=
  match ts with
  | [] => (w, ph)
  | t :: ts' => let '(w', ph') := restart_step e t w ph in run_restart e w' ph' ts'
  end.

Fixpoint replace_nth {A} (n : nat) (x : A) (l : list A) : list A :=
  match l, n with
  | [], _ => []
  | _ :: l', O => x :: l'
  | y :: l', S n' => y :: replace_nth n' x l'
  end.

(** Several calls of [safeRestartTimerIfNeeded] in flight at once (the lock
    poller and the idle poller each start one), interleaved at their [await]s:
    each schedule entry [(i, t)] resumes call [i] at clock reading [t]. *)
Fixpoint run_interleaved (e : env) (w : world) (calls : list rphase)
    (sched : list (nat * Z)) : world * list rphase :=
  match sched with
  | [] => (w, calls)
  | (i, t) :: sched' =>
      let '(w', ph') := restart_step e t w (nth i calls RDone) in
      run_interleaved e w' (replace_nth i ph' calls) sched'
  end.

(** What a poller tick does. *)
Inductive tick_action := ActStop | ActRestart | ActNone.

(** The idle poller: [idleTime >= IDLE_THRESHOLD_SECONDS] stops, otherwise a
    previous successful stop ([lastIdle]) asks for a restart. *)
Definition idle_decide (idleTime : Z) (lastIdle : bool) : tick_action :=
  if IDLE_THRESHOLD_SECONDS <=? idleTime then ActStop
  else if lastIdle then ActRestart else ActNone.

(** The lock poller: [locked && !isLocked] stops, [!locked && isLocked] restarts. *)
Definition lock_decide (locked isLocked : bool) : tick_action :=
  if locked && negb isLocked then ActStop
  else if negb locked && isLocked then ActRestart else ActNone.

Definition count_starts (tr : list event) : nat :=
  List.length (filter (fun ev => match ev with EvRemoteStart _ _ => true | _ => false end) tr).

(* ------------------------------------------------------------------ *)
(** ** The [event_projects] and [google_tokens] tables *)

(** [event_projects (eventName TEXT PRIMARY KEY, projectId TEXT)]: a NULL
    [projectId] is the "skip" choice. *)
Definition event_projects := list (string * option string).

(** [getEventProject]: [row ? row.projectId : undefined]; the outer [None] is
    [undefined] (no row), [Some None] is a row holding NULL. *)
Fixpoint getEventProject (eventName : string) (t : event_projects) : option (option string) :=
  match t with
  | [] => None
  | (k, v) :: rest => if String.eqb k eventName then Some v else getEventProject eventName rest
  end.

(** [setEventProject]: [INSERT OR REPLACE]; the conflicting row is deleted and
    the new row inserted. *)
Definition setEventProject (eventName : string) (projectId0 : option string)
    (t : event_projects) : event_projects :=
  filter (fun kv => negb (String.eqb (fst kv) eventName)) t ++ [(eventName, projectId0)].

(** A row of [google_tokens (id INTEGER PRIMARY KEY AUTOINCREMENT, token TEXT,
    createdAt TEXT)]; [token] is the [JSON.stringify] text of the token. *)
Record token_row := mkTokenRow {
  tok_id : nat;
  token : string;
  tok_createdAt : Z
}.

(** AUTOINCREMENT on a table from which nothing is deleted: one more than the
    largest id. *)
Definition next_tok_id (t : list token_row) : nat :=
  S (fold_right Nat.max 0%nat (map tok_id t)).

(** [storeToken(token)] at clock reading [now]. *)
Definition storeToken (tok : string) (now : Z) (t : list token_row) : list token_row :=
  t ++ [mkTokenRow (next_tok_id t) tok now].

(** [ORDER BY createdAt DESC LIMIT 1], first row in table order among ties. *)
Fixpoint pick_latest_token (rows : list token_row) : option token_row :=
  match rows with
  | [] => None
  | r :: rest =>
      match pick_latest_token rest with
      | None => Some r
      | Some b => if tok_createdAt r <? tok_createdAt b then Some b else Some r
      end
  end.

(** [getLatestToken]: [row ? JSON.parse(row.token) : null]; the parsed value
    is represented by the stored text. *)
Definition getLatestToken (t : list token_row) : option string :=
  match pick_latest_token t with
  | None => None
  | Some r => Some (token r)
  end.

(* ------------------------------------------------------------------ *)
(** ** [Clockify.startTimer], [Clockify.getProjects] and the commands *)

Definition default_description : string := "Working on a task...".

(** [finalDescription] of [startTimer]: [description] (default
    ['Working on a task...']), replaced by [`${jiraTicket} ${summary}`] when a
    ticket is given and [getJiraTicket] finds it.  [getJiraTicket] (in
    [lib/jira.ts], not under [src/]) is represented by its answer
    [jiraSummary]. *)
Definition finalDescription (description0 : option string) (jiraTicket0 : option string)
    (jiraSummary : option string) : string :=
  let d := match description0 with Some s => s | None => default_description end in
  match jiraTicket0 with
  | Some tk =>
      if truthy jiraTicket0 then
        match jiraSummary with
        | Some sm => String.append tk (String.append " " sm)
        | None => d
        end
      else d
  | None => d
  end.

(** [Clockify.startTimer(workspaceId, projectId, description, jiraTicket)] run
    to completion at clock reading [t]; the result is [response.data] (the
    started entry) or [null]. *)
Definition startTimer (e : env) (jiraSummary : option string) (t : Z) (w : world)
    (projectId0 : string) (description0 jiraTicket0 : option string)
    : world * option (string * string) :=
  if negb (user_ok e) then (w, None)
  else
    let fd := finalDescription description0 jiraTicket0 jiraSummary in
    let sid := w_next_id w in
    let w0 := bump_id w in
    if post_ok e then
      let w1 := emit (EvRemoteStart projectId0 fd) (set_remote (Some (projectId0, fd)) w0) in
      match logSessionStart sid projectId0 fd t jiraTicket0 (w_store w1) with
      | Ok st' =>
          (emit (EvAppend (mkSession sid projectId0 fd t None 0 jiraTicket0)) (set_store st' w1),
           Some (projectId0, fd))
      | Err _ => (w1, None)
      end
    else (w0, None).

(** The [stop] command, after [getWorkspaceAndUser]: [getLatestSession()],
    [stopTimer], then on success [completeLatestSession(completedAt)] with
    [isAutoCompleted] false, [now] being the [new Date()] read after the stop,
    and the Jira worklog. *)
Definition stop_command (e : env) (now : Z) (w : world) : world * outcome bool :=
  match getLatestSession (w_store w) with
  | Err err => (w, Throw err)
  | Ok latest =>
      let '(w1, stoppedEntry) := stopTimer e w in
      match stoppedEntry with
      | None => (w1, Ret false)
      | Some _ =>
          let w2 := closeLatest now false w1 in
          match jiraTicket latest with
          | Some ticket =>
              if truthy (Some ticket) then
                let secs := round_seconds (now - startedAt latest) in
                if 60 <=? secs then (emit (EvJira ticket secs) w2, Ret true) else (w2, Ret true)
              else (w2, Ret true)
          | None => (w2, Ret true)
          end
      end
  end.

(** The [status] command on the running time in milliseconds [ms]:
    [Math.floor(duration / 3600)] and [Math.floor((duration % 3600) / 60)] with
    [duration = ms / 1000]; JavaScript [%] keeps the sign of the dividend. *)
Definition status_hours (ms : Z) : Z := ms / 3600000.
Definition status_minutes (ms : Z) : Z := Z.rem ms 3600000 / 60000.

(** A project as [getProjects] returns it: id and name. *)
Definition project := (string * string)%type.

(** The [while (hasMore)] loop of [getProjects]: [fetch page] is the answer
    to the request for [page] ([None] when it throws).  The loop runs until
    an empty page; [fuel] bounds the number of requests of the model. *)
Fixpoint fetch_pages (fetch : nat -> option (list project)) (fuel page : nat)
    (acc : list project) : option (list project) :=
  match fuel with
  | O => None
  | S f =>
      match fetch page with
      | None => None
      | Some [] => Some acc
      | Some data => fetch_pages fetch f (S page) (acc ++ data)
      end
  end.

(** [getProjects]: pages from 1; any failed request gives [[]]. *)
Definition getProjects (fetch : nat -> option (list project)) (fuel : nat) : list project :=
  match fetch_pages fetch fuel 1 [] with Some ps => ps | None => [] end.

(** The project choices of the [start] command, from the answer of
    [getProjects] and the content of [data/local-projects.json]
    ([getLocalProjects]): an empty file is overwritten with all the projects
    (the first component is what [writeFileSync] writes), then the projects
    are kept whose id the file lists. *)
Definition start_projects (projects localProjects : list project)
    : option (list project) * list project :=
  let '(written, local) :=
    match localProjects with
    | [] => (Some (map (fun p => (fst p, snd p)) projects), map (fun p => (fst p, snd p)) projects)
    | _ => (None, localProjects)
    end in
  let localProjectIds := map fst local in
  let projects' :=
    match local with
    | [] => projects
    | _ => filter (fun p => existsb (String.eqb (fst p)) localProjectIds) projects
    end in
  (written, projects').

(* ------------------------------------------------------------------ *)
(** ** The pollers' flags *)





(* ------------------------------------------------------------------ *)
(** ** [scripts/log-calendar-events.ts] *)

(** A Google Calendar event, as far as the script reads it. *)
Record cal_event := mkCalEvent {
  summary : option string;
  start_date : option string;       (* [event.start.date]: all-day events *)
  start_dateTime : option string;
  end_dateTime : option string
}.

(** What the loop does, in order: a project prompt, a [logTime] call. *)
Inductive cal_action :=
| CalPrompt (label : string)
| CalLogTime (pid : string) (st en : string) (label : string).

Definition is_prompt_for (label : string) (a : cal_action) : bool :=
  match a with CalPrompt l => String.eqb l label | _ => false end.

Definition prompt_count (tr : list cal_action) : nat :=
  List.length (filter (fun a => match a with CalPrompt _ => true | _ => false end) tr).

(** An event the loop acts on: not all-day, summary, start and end times set. *)
Definition timed (ev : cal_event) : bool :=
  negb (truthy (start_date ev)) && truthy (summary ev)
  && truthy (start_dateTime ev) && truthy (end_dateTime ev).

(** [if (!eventProjectId)]: prompt, [setEventProject(event.summary,
    selectedProjectId)], then [logTime] when the answer is truthy. *)
Definition prompt_then_log (choose : nat -> option string) (sm st en : string)
    (tbl : event_projects) (tr : list cal_action) : event_projects * list cal_action :=
  let sel := choose (prompt_count tr) in
  let tbl' := setEventProject sm sel tbl in
  let tr' := tr ++ [CalPrompt sm] in
  match sel with
  | Some q => if truthy sel then (tbl', tr' ++ [CalLogTime q st en sm]) else (tbl', tr')
  | None => (tbl', tr')
  end.

(** One iteration of [for (const event of events)], [cliProjectId] being the
    [-p] option and [choose n] the answer to the [n]-th prompt ([null] for
    "Skip").  [logTime] is only reached with a truthy project id, so it always
    sends its request. *)
Definition process_event (cliProjectId : option string) (choose : nat -> option string)
    (s : event_projects * list cal_action) (ev : cal_event) : event_projects * list cal_action :=
  let '(tbl, tr) := s in
  if truthy (start_date ev) then (tbl, tr)
  else if timed ev then
    match summary ev, start_dateTime ev, end_dateTime ev with
    | Some sm, Some st, Some en =>
        let eventProjectId :=
          match cliProjectId with
          | Some p => if truthy cliProjectId then Some (Some p) else getEventProject sm tbl
          | None => getEventProject sm tbl
          end in
        match eventProjectId with
        | Some None => (tbl, tr)                               (* === null: skip *)
        | Some (Some p) =>
            if String.eqb p "" then
              prompt_then_log choose sm st en tbl tr
            else (tbl, tr ++ [CalLogTime p st en sm])
        | None =>
            prompt_then_log choose sm st en tbl tr
        end
    | _, _, _ => (tbl, tr)
    end
  else (tbl, tr).

Definition log_events (cliProjectId : option string) (choose : nat -> option string)
    (tbl : event_projects) (events : list cal_event) : event_projects * list cal_action :=
  fold_left (process_event cliProjectId choose) events (tbl, []).

(** The label of a calendar action. *)
Definition cal_label (a : cal_action) : string :=
  match a with CalPrompt l => l | CalLogTime _ _ _ l => l end.

(** The number of prompts for the event name [sm]. *)
Definition prompts_for (sm : string) (tr : list cal_action) : nat :=
  List.length (filter (is_prompt_for sm) tr).

(** [event_projects] holds an answer for [sm] that [if (!eventProjectId)] does
    not prompt again for: a skip (NULL) or a non-empty project id. *)
Definition settled (sm : string) (tbl : event_projects) : bool :=
  match getEventProject sm tbl with
  | Some None => true
  | Some (Some q) => negb (String.eqb q "")
  | None => false
  end.

(* ------------------------------------------------------------------ *)
(** ** Auxiliary definitions of the statements *)

(** The columns [completeLatestSession] does not set. *)
Definition fixed_columns (r : session) : nat * string * string * Z * option string :=
  (id r, projectId r, description r, startedAt r, jiraTicket r).

(** Sample answers of the projects endpoint: two pages, then an empty one;
    a failure after the first page. *)
Definition two_pages (n : nat) : option (list project) :=
  match n with
  | 1%nat => Some [("p1"%string, "Alpha"%string); ("p2"%string, "Beta"%string)]
  | 2%nat => Some [("p3"%string, "Gamma"%string)]
  | _ => Some []
  end.

Definition fail_page_two (n : nat) : option (list project) :=
  match n with
  | 1%nat => Some [("p1"%string, "Alpha"%string)]
  | _ => None
  end.

(* ------------------------------------------------------------------ *)
(** ** Facts about the table *)

Lemma pick_latest_None (l : list session) : pick_latest l = None <-> l = [].
Proof.
  destruct l as [|r rest]; simpl; split; try easy.
  destruct (pick_latest rest); [destruct (_ <? _)|]; discriminate.
Qed.

Lemma pick_latest_In (l : list session) (s : session) :
  pick_latest l = Some s -> In s l.
Proof.
  revert s; induction l as [|r rest IH]; intros s H; simpl in *; [discriminate|].
  destruct (pick_latest rest) as [b|] eqn:E.
  - destruct (startedAt r <? startedAt b); inversion H; subst; auto.
  - inversion H; auto.
Qed.

Lemma pick_latest_max (l : list session) (s : session) :
  pick_latest l = Some s -> forall r, In r l -> startedAt r <= startedAt s.
Proof.
  revert s; induction l as [|x rest IH]; intros s H r Hr; simpl in *; [contradiction|].
  destruct (pick_latest rest) as [b|] eqn:E.
  - specialize (IH b eq_refl).
    destruct (startedAt x <? startedAt b) eqn:Hlt; inversion H; subst; clear H.
    + apply Z.ltb_lt in Hlt. destruct Hr as [->|Hr]; [lia | auto].
    + apply Z.ltb_ge in Hlt. destruct Hr as [->|Hr]; [lia|]. specialize (IH r Hr). lia.
  - apply pick_latest_None in E; subst. inversion H; subst.
    destruct Hr as [->|[]]; lia.
Qed.

Lemma open_count_zero (st : store) :
  open_count st = 0%nat <-> forall r, In r st -> is_open r = false.
Proof.
  unfold open_count; split.
  - intros H r Hr. destruct (is_open r) eqn:E; [|reflexivity].
    destruct (filter is_open st) eqn:F; [|discriminate].
    assert (In r (filter is_open st)) by (apply filter_In; auto).
    rewrite F in H0; contradiction.
  - intros H. destruct (filter is_open st) as [|x l] eqn:F; [reflexivity|].
    assert (Hx : In x (filter is_open st)) by (rewrite F; left; reflexivity).
    apply filter_In in Hx as [Hx1 Hx2]. rewrite H in Hx2 by exact Hx1. discriminate.
Qed.

Lemma completeLatestSession_no_open (c : Z) (a : bool) (st : store) :
  open_count st = 0%nat -> completeLatestSession c a st = st.
Proof.
  intros H; unfold completeLatestSession, open_count in *.
  destruct (filter is_open st); [reflexivity | discriminate].
Qed.

Lemma open_count_map_le (f : session -> session) (st : store) :
  (forall r, is_open (f r) = true -> is_open r = true) ->
  (open_count (map f st) <= open_count st)%nat.
Proof.
  intros Hf; unfold open_count; induction st as [|r rest IH]; simpl; [lia|].
  destruct (is_open (f r)) eqn:E1.
  - rewrite (Hf r E1). simpl. lia.
  - destruct (is_open r); simpl; lia.
Qed.

Lemma is_open_close_row (c : Z) (a : bool) (r : session) : is_open (close_row c a r) = false.
Proof. reflexivity. Qed.

Lemma open_count_complete_le (c : Z) (a : bool) (st : store) :
  (open_count (completeLatestSession c a st) <= open_count st)%nat.
Proof.
  unfold completeLatestSession. destruct (pick_latest (filter is_open st)) as [s|]; [|lia].
  apply open_count_map_le. intros r. destruct (Nat.eqb (id r) (id s)); [discriminate | auto].
Qed.

Lemma open_count_app (l1 l2 : store) : open_count (l1 ++ l2) = (open_count l1 + open_count l2)%nat.
Proof. unfold open_count. rewrite filter_app, length_app. reflexivity. Qed.

Lemma open_count_logSessionStart sid p d t j st st' :
  logSessionStart sid p d t j st = Ok st' -> open_count st' = S (open_count st).
Proof.
  unfold logSessionStart. destruct (existsb _ st); intros H; inversion H; subst.
  rewrite open_count_app. unfold open_count at 2. simpl. rewrite Nat.add_1_r. reflexivity.
Qed.

Lemma starts_when_closed_open_count (st : store) (ops : list store_op) :
  (open_count st <= 1)%nat -> starts_when_closed st ops ->
  forall n, (open_count (run_ops st (firstn n ops)) <= 1)%nat.
Proof.
  revert st; induction ops as [|op rest IH]; intros st Hst Hdisc n.
  - rewrite firstn_nil. exact Hst.
  - destruct n as [|n]; [exact Hst|]. simpl in Hdisc |- *. destruct Hdisc as [Hop Hrest].
    apply IH; [|exact Hrest].
    destruct op as [sid p d t j|c a]; simpl.
    + destruct (logSessionStart sid p d t j st) as [st'|] eqn:E; [|exact Hst].
      rewrite (open_count_logSessionStart _ _ _ _ _ _ _ E). lia.
    + pose proof (open_count_complete_le c a st). lia.
Qed.

Lemma NoDup_map_id_inj (st : store) (r s : session) :
  NoDup (map id st) -> In r st -> In s st -> id r = id s -> r = s.
Proof.
  induction st as [|x rest IH]; intros Hnd Hr Hs Hid; [contradiction|].
  simpl in Hnd. inversion Hnd as [|? ? Hnotin Hnd']; subst.
  destruct Hr as [->|Hr], Hs as [->|Hs]; auto.
  - exfalso; apply Hnotin. rewrite Hid. apply in_map; exact Hs.
  - exfalso; apply Hnotin. rewrite <- Hid. apply in_map; exact Hr.
Qed.

Lemma filter_length_split {A} (f : A -> bool) (l : list A) :
  (List.length (filter f l) + List.length (filter (fun x => negb (f x)) l))%nat = List.length l.
Proof.
  induction l as [|x l IH]; simpl; [reflexivity|].
  destruct (f x); simpl; lia.
Qed.

(* ------------------------------------------------------------------ *)
(** ** Claims about the table *)

(** C1 (counterexample): from an empty table, two [logSessionStart] calls with
    distinct ids and no [completeLatestSession] between them leave two rows
    with [completedAt] NULL: [logSessionStart] does not close the open row. *)
Lemma C1_two_starts_two_open :
  open_count (run_ops [] [OpLogSessionStart 1 "p" "a" 1000 None;
                          OpLogSessionStart 2 "p" "b" 2000 None]) = 2%nat.
Proof. reflexivity. Qed.

(** C1 (amended): over any sequence of [logSessionStart] and
    [completeLatestSession] calls from an empty table in which every
    [logSessionStart] is issued while no row is open, every prefix leaves at
    most one row with [completedAt] NULL. *)
Theorem C1_at_most_one_open_when_starts_follow_close (ops : list store_op) :
  starts_when_closed [] ops ->
  forall n, (open_count (run_ops [] (firstn n ops)) <= 1)%nat.
Proof.
  intros H n. apply starts_when_closed_open_count; [apply Nat.le_0_l | exact H].
Qed.

Lemma C1_witness :
  starts_when_closed [] [OpLogSessionStart 1 "p" "a" 1000 None;
                         OpCompleteLatestSession 1500 true;
                         OpLogSessionStart 2 "p" "a" 1600 None]
  /\ (open_count (run_ops [] (firstn 3 [OpLogSessionStart 1 "p" "a" 1000 None;
                                        OpCompleteLatestSession 1500 true;
                                        OpLogSessionStart 2 "p" "a" 1600 None])) <= 1)%nat.
Proof.
  assert (H : starts_when_closed [] [OpLogSessionStart 1 "p" "a" 1000 None;
                                     OpCompleteLatestSession 1500 true;
                                     OpLogSessionStart 2 "p" "a" 1600 None])
    by (simpl; repeat split).
  split; [exact H | apply (C1_at_most_one_open_when_starts_follow_close _ H 3)].
Defined.

(** C2 (counterexample): a row still open ([completedAt] NULL) whose
    [startedAt] is before the cutoff is deleted, and the statement returns
    [undefined] (here [tt]), not a count. *)
Lemma C2_open_session_purged :
  let open_row := mkSession 7 "proj" "work" 1000 None 0 None in
  is_open open_row = true /\ delete_before 5000 [open_row] = ([], tt).
Proof. split; reflexivity. Qed.

(** C2 (amended): [DELETE FROM sessions WHERE startedAt < cutoff] keeps
    exactly the rows with [startedAt >= cutoff] (open or not), in their order,
    removes exactly the rows with [startedAt < cutoff] (an open row included),
    so the number of rows removed is the number of rows before the cutoff;
    [deleteOldSessions] returns nothing. *)
Theorem C2_delete_before_exact (cutoff : Z) (st : store) :
  let '(st', ret) := delete_before cutoff st in
  (forall r, In r st' <-> In r st /\ cutoff <= startedAt r)
  /\ (forall r, In r st -> startedAt r < cutoff -> ~ In r st')
  /\ st' = filter (fun r => cutoff <=? startedAt r) st
  /\ (List.length st - List.length st')%nat
       = List.length (filter (fun r => startedAt r <? cutoff) st)
  /\ ret = tt.
Proof.
  unfold delete_before.
  assert (Hf : filter (fun r => negb (startedAt r <? cutoff)) st
               = filter (fun r => cutoff <=? startedAt r) st).
  { apply filter_ext. intros r. rewrite Z.leb_antisym. reflexivity. }
  split; [|split; [|split; [|split]]].
  - intros r. rewrite filter_In. rewrite negb_true_iff, Z.ltb_ge. tauto.
  - intros r _ Hlt Hin. apply filter_In in Hin as [_ Hin].
    apply negb_true_iff, Z.ltb_ge in Hin. lia.
  - exact Hf.
  - pose proof (filter_length_split (fun r => startedAt r <? cutoff) st). lia.
  - reflexivity.
Qed.

(** C3 (code_bug): on an empty table [getLatestSession] does not return an
    absent value: [SessionSchema.parse(undefined)] throws a [ZodError]. *)
Theorem C3_getLatestSession_empty_throws : getLatestSession [] = Err ZodError.
Proof. reflexivity. Qed.

(** On a non-empty table [getLatestSession] returns a row of the table whose
    [startedAt] is the greatest, open or closed. *)
Lemma getLatestSession_nonempty (st : store) :
  st <> [] -> exists s, getLatestSession st = Ok s /\ In s st
                        /\ forall r, In r st -> startedAt r <= startedAt s.
Proof.
  intros Hne. unfold getLatestSession.
  destruct (pick_latest st) as [s|] eqn:E.
  - exists s. split; [reflexivity|]. split; [apply pick_latest_In; exact E|].
    apply pick_latest_max; exact E.
  - apply pick_latest_None in E. contradiction.
Qed.

Lemma length_one_eq {A} (l : list A) (x y : A) :
  List.length l = 1%nat -> In x l -> In y l -> x = y.
Proof.
  destruct l as [|a [|b l]]; simpl; try discriminate.
  intros _ [->|[]] [->|[]]; reflexivity.
Qed.

Lemma pick_latest_open (st : store) (s : session) :
  pick_latest (filter is_open st) = Some s ->
  In s st /\ is_open s = true
  /\ forall r, In r st -> is_open r = true -> startedAt r <= startedAt s.
Proof.
  intros E. pose proof (pick_latest_In _ _ E) as Hin. apply filter_In in Hin as [Hin Ho].
  split; [exact Hin|]. split; [exact Ho|].
  intros r Hr Hro. apply (pick_latest_max _ _ E). apply filter_In; auto.
Qed.

Lemma completeLatestSession_closes_all (c : Z) (a : bool) (st : store) :
  (open_count st <= 1)%nat -> open_count (completeLatestSession c a st) = 0%nat.
Proof.
  intros H. destruct (open_count st) as [|[|k]] eqn:Hoc; [| |lia].
  - rewrite completeLatestSession_no_open by exact Hoc. exact Hoc.
  - unfold completeLatestSession.
    destruct (pick_latest (filter is_open st)) as [s|] eqn:E.
    + destruct (pick_latest_open _ _ E) as [Hs [Hso _]].
      apply open_count_zero. intros r' Hr'. apply in_map_iff in Hr' as [r [<- Hr]].
      destruct (Nat.eqb (id r) (id s)) eqn:Hid; [reflexivity|].
      destruct (is_open r) eqn:Hro; [|reflexivity].
      assert (r = s).
      { apply (length_one_eq (filter is_open st)); [exact Hoc | |];
          apply filter_In; auto. }
      subst r. rewrite Nat.eqb_refl in Hid. discriminate.
    + apply pick_latest_None in E. unfold open_count in Hoc. rewrite E in Hoc. discriminate.
Qed.

(** C8: [completeLatestSession(completedAt, isAutoCompleted)] leaves the table
    unchanged when no row has [completedAt] NULL; otherwise it picks an open
    row [s] whose [startedAt] is the greatest among the open rows and sets
    [completedAt] and [isAutoCompleted] on the row with [s]'s id, which (ids
    being the PRIMARY KEY) is [s] alone; every other row is unchanged. *)
Theorem C8_completeLatestSession_closes_latest_open (c : Z) (a : bool) (st : store) :
  NoDup (map id st) ->
  (open_count st = 0%nat -> completeLatestSession c a st = st)
  /\ (open_count st <> 0%nat ->
      exists s, In s st /\ is_open s = true
        /\ (forall r, In r st -> is_open r = true -> startedAt r <= startedAt s)
        /\ completeLatestSession c a st
             = map (fun r => if Nat.eqb (id r) (id s) then close_row c a r else r) st
        /\ (forall r, In r st -> Nat.eqb (id r) (id s) = true -> r = s)).
Proof.
  intros Hnd. split; [apply completeLatestSession_no_open|].
  intros Hne. unfold completeLatestSession.
  destruct (pick_latest (filter is_open st)) as [s|] eqn:E.
  - destruct (pick_latest_open _ _ E) as [Hs [Hso Hmax]].
    exists s. split; [exact Hs|]. split; [exact Hso|]. split; [exact Hmax|].
    split; [reflexivity|].
    intros r Hr Hid. apply Nat.eqb_eq in Hid. exact (NoDup_map_id_inj st r s Hnd Hr Hs Hid).
  - apply pick_latest_None in E. unfold open_count in Hne. rewrite E in Hne. contradiction.
Qed.

Lemma C8_witness :
  let st := [mkSession 1 "p" "a" 1000 (Some 1200) 1 None;
             mkSession 2 "p" "b" 3000 None 0 None;
             mkSession 3 "q" "c" 2000 None 0 None] in
  NoDup (map id st)
  /\ (open_count st = 0%nat -> completeLatestSession 5000 true st = st)
  /\ (open_count st <> 0%nat ->
      exists s, In s st /\ is_open s = true
        /\ (forall r, In r st -> is_open r = true -> startedAt r <= startedAt s)
        /\ completeLatestSession 5000 true st
             = map (fun r => if Nat.eqb (id r) (id s) then close_row 5000 true r else r) st
        /\ (forall r, In r st -> Nat.eqb (id r) (id s) = true -> r = s)).
Proof.
  intros st.
  assert (Hnd : NoDup (map id st)).
  { simpl. repeat constructor; simpl; intuition discriminate. }
  split; [exact Hnd|]. exact (C8_completeLatestSession_closes_latest_open 5000 true st Hnd).
Defined.

(** C9 (counterexample): after two [logSessionStart] calls the table has two
    open rows; the first [completeLatestSession] closes the later one and the
    second call closes the other, so the two states differ. *)
Lemma C9_second_close_changes_store :
  let st := run_ops [] [OpLogSessionStart 1 "p" "a" 1000 None;
                        OpLogSessionStart 2 "p" "b" 2000 None] in
  completeLatestSession 4000 false (completeLatestSession 3000 true st)
  <> completeLatestSession 3000 true st.
Proof. vm_compute. intros H. discriminate H. Qed.

(** C9 (amended): when the table has at most one open row before the first
    call, a second [completeLatestSession] right after the first, with any
    arguments, leaves the table as the first call left it. *)
Theorem C9_second_close_noop_if_at_most_one_open (c1 c2 : Z) (a1 a2 : bool) (st : store) :
  (open_count st <= 1)%nat ->
  completeLatestSession c2 a2 (completeLatestSession c1 a1 st) = completeLatestSession c1 a1 st.
Proof.
  intros H. apply completeLatestSession_no_open. apply completeLatestSession_closes_all; exact H.
Qed.

Lemma C9_witness :
  let st := [mkSession 1 "p" "a" 1000 (Some 1200) 1 None;
             mkSession 2 "p" "b" 3000 None 0 None] in
  (open_count st <= 1)%nat
  /\ completeLatestSession 9000 false (completeLatestSession 5000 true st)
     = completeLatestSession 5000 true st.
Proof.
  intros st. assert (H : (open_count st <= 1)%nat) by (vm_compute; lia).
  split; [exact H | exact (C9_second_close_noop_if_at_most_one_open 5000 9000 true false st H)].
Defined.

(* ------------------------------------------------------------------ *)
(** ** Claims about the monitor *)

Lemma stopTimer_None_world (e : env) (w : world) :
  snd (stopTimer e w) = None -> fst (stopTimer e w) = w.
Proof.
  unfold stopTimer. destruct (stop_ok e); [destruct (w_remote w)|]; simpl; congruence.
Qed.

(** C10: in a stop tick, when [getActiveTimer] finds no running entry or
    [stopTimer] returns no stopped entry, [stopTimerAndLog] leaves the whole
    world as it was: no [completeLatestSession], no row changed. *)
Theorem C10_no_stop_no_store_change (e : env) (now : Z) (w : world) :
  getActiveTimer e w = None \/ snd (stopTimer e w) = None ->
  fst (stopTimerAndLog e now w) = w.
Proof.
  intros H. unfold stopTimerAndLog.
  destruct (getActiveTimer e w) as [entry|] eqn:Ha; [|reflexivity].
  destruct H as [H|H]; [discriminate|].
  destruct (getLatestSession (w_store w)) as [latest|err]; [|reflexivity].
  destruct (stopTimer e w) as [w1 stopped] eqn:Hs. simpl in H. subst stopped.
  simpl. change w1 with (fst (w1, @None (string * string))). rewrite <- Hs.
  apply stopTimer_None_world. rewrite Hs. reflexivity.
Qed.

Lemma C10_witness :
  let e := mkEnv true true false true in
  let w := mkWorld [mkSession 1 "proj" "work" 1000 None 0 None]
             (Some ("proj"%string, "work"%string)) [] 0 2 in
  (getActiveTimer e w = None \/ snd (stopTimer e w) = None)
  /\ fst (stopTimerAndLog e 5000 w) = w.
Proof.
  intros e w. assert (H : getActiveTimer e w = None \/ snd (stopTimer e w) = None)
    by (right; reflexivity).
  split; [exact H | exact (C10_no_stop_no_store_change e 5000 w H)].
Defined.

(** C6 (counterexample): a stop tick with a running Clockify entry whose PATCH
    fails: [stopTimer] returns [null], the entry keeps running and the open row
    is not closed. *)
Lemma C6_failed_stop_keeps_session_open :
  let e := mkEnv true true false true in
  let w := mkWorld [mkSession 1 "proj" "work" 1000 None 0 None]
             (Some ("proj"%string, "work"%string)) [] 0 2 in
  idle_decide 305 false = ActStop
  /\ getActiveTimer e w <> None
  /\ stopTimerAndLog e 5000 w = (w, Ret false)
  /\ w_remote w <> None /\ open_count (w_store w) = 1%nat.
Proof. vm_compute. repeat split; discriminate. Qed.

(** C6 (amended): a tick becomes a stop tick when [idleTime >= 300] (idle
    poller) or on [locked && !isLocked] (lock poller).  In it,
    [stopTimerAndLog] first asks [getActiveTimer]: when that returns nothing
    (no entry runs, or the GET fails) it returns [false] and changes nothing,
    without calling [stopTimer].  Otherwise, with a non-empty table, it calls
    [stopTimer]: when that returns nothing the world is left as it was and it
    returns [false]; when it returns the stopped entry, the remote entry is
    ended first, then [completeLatestSession(now, true)] runs on the table,
    in that order, possibly followed by the best-effort Jira request, and it
    returns [true]. *)
Theorem C6_stop_then_close (e : env) (now idleTime : Z) (lastIdle : bool) (w : world) :
  (IDLE_THRESHOLD_SECONDS <= idleTime -> idle_decide idleTime lastIdle = ActStop)
  /\ lock_decide true false = ActStop
  /\ (getActiveTimer e w = None -> stopTimerAndLog e now w = (w, Ret false))
  /\ (getActiveTimer e w <> None -> w_store w <> [] -> snd (stopTimer e w) = None ->
      stopTimerAndLog e now w = (w, Ret false))
  /\ (getActiveTimer e w <> None -> w_store w <> [] -> snd (stopTimer e w) <> None ->
      exists w' jira,
        stopTimerAndLog e now w = (w', Ret true)
        /\ w_store w' = completeLatestSession now true (w_store w)
        /\ w_remote w' = None
        /\ w_trace w' = w_trace w ++ [EvRemoteStop; EvClose now true] ++ jira
        /\ (jira = [] \/ exists ticket secs, jira = [EvJira ticket secs])).
Proof.
  split; [intros H; unfold idle_decide; apply Z.leb_le in H; rewrite H; reflexivity|].
  split; [reflexivity|].
  split; [intros H; unfold stopTimerAndLog; rewrite H; reflexivity|].
  split.
  { intros Ha Hne Hs.
    destruct (getLatestSession_nonempty _ Hne) as [latest [Hl _]].
    unfold stopTimerAndLog.
    destruct (getActiveTimer e w) as [entry|]; [|contradiction].
    rewrite Hl. pose proof (stopTimer_None_world e w Hs) as Hw.
    destruct (stopTimer e w) as [w1 r1]. cbn in Hs, Hw. subst. reflexivity. }
  intros Ha Hne Hs.
  destruct (getLatestSession_nonempty _ Hne) as [latest [Hl _]].
  unfold stopTimerAndLog.
  destruct (getActiveTimer e w) as [entry|] eqn:Hga; [|contradiction].
  rewrite Hl.
  unfold stopTimer in Hs |- *.
  destruct (stop_ok e); [|contradiction].
  destruct (w_remote w) as [r|] eqn:Hr; [|contradiction].
  destruct w as [st rem tr lr nid]; simpl in *.
  destruct (jiraTicket latest) as [ticket|];
    [destruct (String.eqb ticket ""); [|destruct (60 <=? round_seconds (now - startedAt latest))]|];
    cbn [negb];
    first
      [ eexists; exists [EvJira ticket (round_seconds (now - startedAt latest))];
        split; [reflexivity|]; simpl; split; [reflexivity|]; split; [reflexivity|];
        split; [repeat rewrite <- app_assoc; reflexivity|]; right; eauto
      | eexists; exists []; split; [reflexivity|]; simpl;
        split; [reflexivity|]; split; [reflexivity|];
        split; [repeat rewrite <- app_assoc; reflexivity|]; left; reflexivity ].
Qed.

Lemma C6_witness :
  let e := mkEnv true true true true in
  let w := mkWorld [mkSession 1 "proj" "work" 1000 None 0 (Some "JIRA-1"%string)]
             (Some ("proj"%string, "work"%string)) [] 0 2 in
  getActiveTimer e w <> None /\ w_store w <> [] /\ snd (stopTimer e w) <> None
  /\ exists w' jira,
       stopTimerAndLog e 400000 w = (w', Ret true)
       /\ w_store w' = completeLatestSession 400000 true (w_store w)
       /\ w_remote w' = None
       /\ w_trace w' = w_trace w ++ [EvRemoteStop; EvClose 400000 true] ++ jira
       /\ (jira = [] \/ exists ticket secs, jira = [EvJira ticket secs]).
Proof.
  intros e w.
  assert (H1 : getActiveTimer e w <> None) by discriminate.
  assert (H2 : w_store w <> []) by discriminate.
  assert (H3 : snd (stopTimer e w) <> None) by discriminate.
  split; [exact H1|]. split; [exact H2|]. split; [exact H3|].
  destruct (C6_stop_then_close e 400000 305 false w) as [_ [_ [_ [_ H]]]].
  exact (H H1 H2 H3).
Defined.

(** Runs the next phase of [safeRestartTimerIfNeeded] symbolically. *)
Ltac restart_simpl :=
  cbn [restart_step w_store w_remote w_trace w_lastResumeAt w_next_id
       bump_id emit set_remote set_store set_lastResumeAt].

Lemma cooldown_blocks_entry (e : env) (t : Z) (w : world) :
  t - w_lastResumeAt w < RESUME_COOLDOWN_MS -> restart_step e t w REntry = (w, RDone).
Proof. intros H. simpl. apply Z.ltb_lt in H. rewrite H. reflexivity. Qed.

Lemma eligible_true (s : session) (c twoHoursAgo : Z) :
  completedAt s = Some c -> isAutoCompleted s <> 0 -> twoHoursAgo < c ->
  projectId s <> ""%string -> eligible s twoHoursAgo = true.
Proof.
  intros Hc Ha Ht Hp. unfold eligible. rewrite Hc.
  apply Z.eqb_neq in Ha. apply Z.ltb_lt in Ht. rewrite Ha, Ht. simpl.
  destruct (String.eqb_spec (projectId s) ""); [contradiction | reflexivity].
Qed.

Lemma logSessionStart_fresh sid p d t j (st : store) :
  (forall r, In r st -> id r <> sid) ->
  logSessionStart sid p d t j st = Ok (st ++ [mkSession sid p d t None 0 j]).
Proof.
  intros H. unfold logSessionStart.
  destruct (existsb (fun r => Nat.eqb (id r) sid) st) eqn:E; [|reflexivity].
  apply existsb_exists in E as [r [Hr Hid]]. apply Nat.eqb_eq in Hid.
  exfalso; exact (H r Hr Hid).
Qed.

(** C4 (counterexample): the latest row is closed, auto-completed, finished
    a thousand seconds ago and has a project, and no Clockify entry runs; but
    the previous resume set [lastResumeAt] five seconds before, so the cooldown
    returns at once: nothing is started, nothing is inserted. *)
Lemma C4_cooldown_blocks_eligible_resume :
  let e := mkEnv true true true true in
  let s := mkSession 1 "proj" "work" 1000000 (Some 5000000) 1 None in
  let w := mkWorld [s] None [] 5995000 2 in
  getLatestSession (w_store w) = Ok s /\ getActiveTimer e w = None
  /\ eligible s (6000800 - TWO_HOURS_MS) = true
  /\ run_restart e w REntry [6000000; 6000800; 6000900; 6001000; 6001100; 6001200] = (w, RDone).
Proof. vm_compute. repeat split. Qed.

(** C4 (amended): when [safeRestartTimerIfNeeded] runs (idle poller: idle time
    back under 300 s after a successful idle stop; lock poller: unlock after a
    lock), at least [RESUME_COOLDOWN_MS] after the previous resume, and the
    latest row is closed, auto-completed, finished within two hours of the
    clock reading taken after [getActiveTimer], has a project, [getActiveTimer]
    returns nothing (no Clockify entry runs, or its GET fails while one may
    run), [getUser] and the POST succeed and the new id is fresh, then exactly
    one Clockify entry is started with the row's project and description and
    exactly one row is inserted: new id, same project and description,
    [startedAt] the time read in [startTimer], open, [isAutoCompleted = 0], no
    Jira ticket; [lastResumeAt] is then set. *)
Theorem C4_eligible_resume_starts_one (e : env) (w : world) (s : session)
    (c t0 t1 t2 t3 t4 t5 : Z) :
  getLatestSession (w_store w) = Ok s ->
  completedAt s = Some c -> isAutoCompleted s <> 0 -> t2 - TWO_HOURS_MS < c ->
  projectId s <> ""%string ->
  getActiveTimer e w = None ->
  RESUME_COOLDOWN_MS <= t0 - w_lastResumeAt w ->
  user_ok e = true -> post_ok e = true ->
  (forall r, In r (w_store w) -> id r <> w_next_id w) ->
  let row := mkSession (w_next_id w) (projectId s) (description s) t3 None 0 None in
  run_restart e w REntry [t0; t1; t2; t3; t4; t5]
  = (mkWorld (w_store w ++ [row]) (Some (projectId s, description s))
       (w_trace w ++ [EvRemoteStart (projectId s) (description s); EvAppend row])
       t5 (S (w_next_id w)), RDone).
Proof.
  intros Hl Hc Ha Hf Hp Hna Hcool Hu Hpo Hids row.
  destruct w as [st rem tr lr nid]; simpl in *.
  assert (Hcl : (t0 - lr <? RESUME_COOLDOWN_MS) = false) by (apply Z.ltb_ge; exact Hcool).
  cbn [run_restart]. restart_simpl. rewrite Hcl.
  restart_simpl. rewrite Hl.
  restart_simpl. rewrite Hna, (eligible_true s c _ Hc Ha Hf Hp).
  restart_simpl. rewrite Hu.
  restart_simpl. rewrite Hpo.
  restart_simpl. rewrite (logSessionStart_fresh _ _ _ _ _ st Hids).
  unfold emit, set_store, set_remote, set_lastResumeAt; simpl.
  rewrite <- app_assoc. reflexivity.
Qed.

Lemma C4_witness :
  let e := mkEnv true true true true in
  let s := mkSession 1 "proj" "work" 1000000 (Some 5000000) 1 None in
  let w := mkWorld [s] None [] 0 2 in
  let row := mkSession (w_next_id w) (projectId s) (description s) 6001000 None 0 None in
  getLatestSession (w_store w) = Ok s
  /\ run_restart e w REntry [6000000; 6000800; 6000900; 6001000; 6001100; 6001200]
     = (mkWorld (w_store w ++ [row]) (Some (projectId s, description s))
          (w_trace w ++ [EvRemoteStart (projectId s) (description s); EvAppend row])
          6001200 (S (w_next_id w)), RDone).
Proof.
  intros e s w row. split; [reflexivity|].
  apply (C4_eligible_resume_starts_one e w s 5000000);
    [reflexivity | reflexivity | discriminate | vm_compute; reflexivity | discriminate
    | reflexivity | vm_compute; discriminate | reflexivity | reflexivity
    | intros r [<-|[]]; discriminate].
Defined.

Lemma run_restart_done (e : env) (w : world) (ts : list Z) :
  run_restart e w RDone ts = (w, RDone).
Proof. induction ts as [|t ts IH]; [reflexivity | exact IH]. Qed.

(** C7: when the latest row finished three hours before the clock reading
    [t0] at which [safeRestartTimerIfNeeded] is entered (the clock not going
    back before the eligibility test), the call changes nothing: no Clockify
    entry is started, no row is inserted, [lastResumeAt] is kept. *)
Theorem C7_three_hours_old_not_resumed (e : env) (w : world) (s : session)
    (t0 t1 t2 t3 t4 t5 : Z) :
  getLatestSession (w_store w) = Ok s ->
  completedAt s = Some (t0 - 3 * 60 * 60 * 1000) ->
  t0 <= t2 ->
  run_restart e w REntry [t0; t1; t2; t3; t4; t5] = (w, RDone).
Proof.
  intros Hl Hc Ht.
  cbn [run_restart]. restart_simpl.
  destruct (t0 - w_lastResumeAt w <? RESUME_COOLDOWN_MS).
  { reflexivity. }
  restart_simpl. rewrite Hl.
  restart_simpl. destruct (getActiveTimer e w) as [entry|].
  { reflexivity. }
  assert (He : eligible s (t2 - TWO_HOURS_MS) = false).
  { unfold eligible. rewrite Hc.
    replace (t2 - TWO_HOURS_MS <? t0 - 3 * 60 * 60 * 1000) with false
      by (symmetry; apply Z.ltb_ge; unfold TWO_HOURS_MS; lia).
    rewrite andb_false_r. reflexivity. }
  rewrite He. reflexivity.
Qed.

Lemma C7_witness :
  let e := mkEnv true true true true in
  let s := mkSession 1 "proj" "work" 1000000 (Some (20000000 - 3 * 60 * 60 * 1000)) 1 None in
  let w := mkWorld [s] None [] 0 2 in
  getLatestSession (w_store w) = Ok s
  /\ run_restart e w REntry [20000000; 20000800; 20000900; 20001000; 20001100; 20001200]
     = (w, RDone).
Proof.
  intros e s w. split; [reflexivity|].
  apply (C7_three_hours_old_not_resumed e w s); [reflexivity | reflexivity | lia].
Defined.

(** C5 (code_bug): the idle poller (idle time back under 300 s after it
    stopped the timer) and the lock poller (unlock after a lock) enter
    [safeRestartTimerIfNeeded] 100 ms apart.  Both pass the cooldown test,
    since [lastResumeAt] is only written after [startTimer] has finished; both
    see no running Clockify entry, since neither POST has happened yet; both
    resume: two Clockify entries are started within 10 s and two open rows are
    inserted. *)
Theorem C5_two_resumes_within_cooldown :
  let e := mkEnv true true true true in
  let s := mkSession 1 "proj" "work" 1000000 (Some 7000000) 1 None in
  let w := mkWorld [s] None [] 0 2 in
  let sched := [(0%nat, 7020000); (1%nat, 7020100); (0%nat, 7020800); (1%nat, 7020900);
                (0%nat, 7021000); (1%nat, 7021100); (0%nat, 7021200); (1%nat, 7021300);
                (0%nat, 7021400); (1%nat, 7021500); (0%nat, 7021600); (1%nat, 7021700)] in
  let '(w', calls) := run_interleaved e w [REntry; REntry] sched in
  count_starts (w_trace w') = 2%nat
  /\ open_count (w_store w') = 2%nat
  /\ calls = [RDone; RDone]
  /\ w_lastResumeAt w' = 7021700.
Proof. vm_compute. repeat split. Qed.

(* ------------------------------------------------------------------ *)
(** ** Further properties of [db.ts] *)

Lemma getEventProject_filter_other (k k' : string) (t : event_projects) :
  k' <> k ->
  getEventProject k' (filter (fun kv => negb (String.eqb (fst kv) k)) t) = getEventProject k' t.
Proof.
  intros Hne. induction t as [|[x v] rest IH]; simpl; [reflexivity|].
  destruct (String.eqb_spec x k) as [->|Hxk]; simpl.
  - destruct (String.eqb_spec k k'); [congruence | exact IH].
  - destruct (String.eqb x k'); [reflexivity | exact IH].
Qed.

Lemma getEventProject_filter_same (k : string) (t : event_projects) :
  getEventProject k (filter (fun kv => negb (String.eqb (fst kv) k)) t) = None.
Proof.
  induction t as [|[x v] rest IH]; simpl; [reflexivity|].
  destruct (String.eqb_spec x k); simpl; [exact IH|].
  destruct (String.eqb_spec x k); [contradiction | exact IH].
Qed.

Lemma getEventProject_app (k : string) (t1 t2 : event_projects) :
  getEventProject k (t1 ++ t2)
  = match getEventProject k t1 with Some v => Some v | None => getEventProject k t2 end.
Proof.
  induction t1 as [|[x v] rest IH]; simpl; [reflexivity|].
  destruct (String.eqb x k); [reflexivity | exact IH].
Qed.

(** X1: after [setEventProject(name, projectId)], [getEventProject(name)]
    returns that value; a NULL ("skip") choice reads back as [null], not as
    [undefined]. *)
Theorem X1_getEventProject_setEventProject (k : string) (v : option string) (t : event_projects) :
  getEventProject k (setEventProject k v t) = Some v.
Proof.
  unfold setEventProject. rewrite getEventProject_app, getEventProject_filter_same.
  simpl. rewrite String.eqb_refl. reflexivity.
Qed.

(** X2: [setEventProject] on one event name leaves the answer of
    [getEventProject] for every other name unchanged. *)
Theorem X2_setEventProject_other_names (k k' : string) (v : option string) (t : event_projects) :
  k' <> k -> getEventProject k' (setEventProject k v t) = getEventProject k' t.
Proof.
  intros Hne. unfold setEventProject. rewrite getEventProject_app, getEventProject_filter_other by exact Hne.
  simpl. destruct (getEventProject k' t); [reflexivity|].
  destruct (String.eqb_spec k k'); [congruence | reflexivity].
Qed.

Lemma X2_witness :
  ("standup"%string <> "retro"%string)
  /\ getEventProject "standup" (setEventProject "retro" None [("standup"%string, Some "p1"%string)])
     = getEventProject "standup" [("standup"%string, Some "p1"%string)].
Proof.
  assert (H : "standup"%string <> "retro"%string) by discriminate.
  split; [exact H | exact (X2_setEventProject_other_names _ _ None _ H)].
Defined.

(** X3: [INSERT OR REPLACE] is last-write-wins: setting a name twice gives
    the same table as setting it once to the second value. *)
Theorem X3_setEventProject_last_write_wins (k : string) (v1 v2 : option string) (t : event_projects) :
  setEventProject k v2 (setEventProject k v1 t) = setEventProject k v2 t.
Proof.
  unfold setEventProject. f_equal. rewrite filter_app. simpl. rewrite String.eqb_refl. simpl.
  rewrite app_nil_r. induction t as [|[x v] rest IH]; simpl; [reflexivity|].
  destruct (String.eqb x k) eqn:E; simpl; [exact IH|]. rewrite E. simpl. f_equal. exact IH.
Qed.

(** X4: [setEventProject] keeps [eventName] a key: no name has two rows. *)
Theorem X4_setEventProject_keys_unique (k : string) (v : option string) (t : event_projects) :
  NoDup (map fst t) -> NoDup (map fst (setEventProject k v t)).
Proof.
  intros Hnd. unfold setEventProject. rewrite map_app. simpl.
  apply NoDup_app; [| constructor; [intros []|constructor] |].
  - induction t as [|[x w] rest IH]; simpl in *; [constructor|].
    inversion Hnd as [|? ? Hni Hnd']; subst.
    destruct (String.eqb x k); simpl; [apply IH; exact Hnd'|].
    constructor; [|apply IH; exact Hnd'].
    intros Hin. apply Hni. apply in_map_iff in Hin as [[y u] [Hy Hin]]. simpl in Hy; subst.
    apply filter_In in Hin as [Hin _]. apply in_map_iff. eexists; split; [|exact Hin]; reflexivity.
  - intros x Hx [<-|[]]. apply in_map_iff in Hx as [[y u] [Hy Hin]]. simpl in Hy; subst.
    apply filter_In in Hin as [_ Hin]. simpl in Hin. rewrite String.eqb_refl in Hin. discriminate.
Qed.

Lemma X4_witness :
  NoDup (map fst [("standup"%string, Some "p1"%string); ("retro"%string, None)])
  /\ NoDup (map fst (setEventProject "standup" None
                       [("standup"%string, Some "p1"%string); ("retro"%string, None)])).
Proof.
  assert (H : NoDup (map fst [("standup"%string, Some "p1"%string); ("retro"%string, None)])).
  { simpl. constructor; [simpl; intros [H|[]]; discriminate|]. constructor; [intros []|constructor]. }
  split; [exact H | exact (X4_setEventProject_keys_unique _ _ _ H)].
Defined.

Lemma pick_latest_token_app_last (t : list token_row) (x : token_row) :
  (forall r, In r t -> tok_createdAt r < tok_createdAt x) -> pick_latest_token (t ++ [x]) = Some x.
Proof.
  induction t as [|r rest IH]; intros H; simpl; [reflexivity|].
  rewrite IH by (intros r' Hr'; apply H; right; exact Hr').
  assert (Hr : tok_createdAt r < tok_createdAt x) by (apply H; left; reflexivity).
  apply Z.ltb_lt in Hr. rewrite Hr. reflexivity.
Qed.

(** X5: [storeToken] only appends (the stored tokens are kept as they were),
    and when its [createdAt] is later than every stored one,
    [getLatestToken] returns the token just stored. *)
Theorem X5_storeToken_then_getLatestToken (tok : string) (now : Z) (t : list token_row) :
  (forall r, In r t -> tok_createdAt r < now) ->
  (exists row, storeToken tok now t = t ++ [row] /\ token row = tok)
  /\ getLatestToken (storeToken tok now t) = Some tok.
Proof.
  intros H. split; [eexists; split; reflexivity|].
  unfold getLatestToken, storeToken. rewrite pick_latest_token_app_last by exact H. reflexivity.
Qed.

Lemma X5_witness :
  (forall r, In r [mkTokenRow 1 "old" 1000] -> tok_createdAt r < 5000)
  /\ (exists row, storeToken "new" 5000 [mkTokenRow 1 "old" 1000] = [mkTokenRow 1 "old" 1000] ++ [row]
                  /\ token row = "new"%string)
  /\ getLatestToken (storeToken "new" 5000 [mkTokenRow 1 "old" 1000]) = Some "new"%string.
Proof.
  assert (H : forall r, In r [mkTokenRow 1 "old" 1000] -> tok_createdAt r < 5000).
  { intros r [<-|[]]. simpl. lia. }
  split; [exact H | exact (X5_storeToken_then_getLatestToken "new" 5000 _ H)].
Defined.

(** X6: [logSessionStart] never overwrites: an id already in the table is
    refused with the PRIMARY KEY error (table unchanged), and a fresh id adds
    one open, non-auto-completed row at the end, the existing rows kept and
    ids staying unique. *)
Theorem X6_logSessionStart_insert_only sid p d t j (st : store) :
  NoDup (map id st) ->
  ((exists r, In r st /\ id r = sid) -> logSessionStart sid p d t j st = Err SqliteConstraintPrimaryKey)
  /\ ((forall r, In r st -> id r <> sid) ->
      exists st', logSessionStart sid p d t j st = Ok st'
        /\ st' = st ++ [mkSession sid p d t None 0 j] /\ NoDup (map id st')).
Proof.
  intros Hnd. split.
  - intros [r [Hr Hid]]. unfold logSessionStart.
    replace (existsb (fun r0 => Nat.eqb (id r0) sid) st) with true; [reflexivity|].
    symmetry. apply existsb_exists. exists r. split; [exact Hr | apply Nat.eqb_eq; exact Hid].
  - intros Hfresh. eexists. split; [apply logSessionStart_fresh; exact Hfresh|]. split; [reflexivity|].
    rewrite map_app. simpl. apply NoDup_app; [exact Hnd | constructor; [intros []|constructor] |].
    intros x Hx [<-|[]]. apply in_map_iff in Hx as [r [Hid Hr]]. exact (Hfresh r Hr Hid).
Qed.

Lemma X6_witness :
  let st := [mkSession 1 "p" "a" 1000 (Some 2000) 0 None] in
  NoDup (map id st)
  /\ ((exists r, In r st /\ id r = 2%nat) ->
      logSessionStart 2 "p" "b" 3000 None st = Err SqliteConstraintPrimaryKey)
  /\ ((forall r, In r st -> id r <> 2%nat) ->
      exists st', logSessionStart 2 "p" "b" 3000 None st = Ok st'
        /\ st' = st ++ [mkSession 2 "p" "b" 3000 None 0 None] /\ NoDup (map id st')).
Proof.
  intros st. assert (H : NoDup (map id st)) by (repeat constructor; intros []).
  split; [exact H | exact (X6_logSessionStart_insert_only 2 "p" "b" 3000 None st H)].
Defined.

Lemma Forall2_map_self {A} (P : A -> A -> Prop) (f : A -> A) (l : list A) :
  (forall x, In x l -> P x (f x)) -> Forall2 P l (map f l).
Proof.
  induction l as [|x l IH]; intros H; simpl; constructor.
  - apply H; left; reflexivity.
  - apply IH. intros y Hy; apply H; right; exact Hy.
Qed.

Lemma Forall2_refl_in {A} (P : A -> A -> Prop) (l : list A) :
  (forall x, In x l -> P x x) -> Forall2 P l l.
Proof.
  intros H. rewrite <- (map_id l) at 2. apply Forall2_map_self. exact H.
Qed.

(** X7: [completeLatestSession] keeps every row in place with its id,
    project, description, [startedAt] and Jira ticket, and leaves every row
    that was already closed exactly as it was: a completed session is never
    re-completed. *)
Theorem X7_completeLatestSession_touches_only_open (c : Z) (a : bool) (st : store) :
  NoDup (map id st) ->
  Forall2 (fun r r' => fixed_columns r' = fixed_columns r /\ (is_open r = false -> r' = r))
    st (completeLatestSession c a st).
Proof.
  intros Hnd. unfold completeLatestSession.
  destruct (pick_latest (filter is_open st)) as [s|] eqn:E.
  - destruct (pick_latest_open _ _ E) as [Hs [Hso _]].
    apply Forall2_map_self. intros r Hr.
    destruct (Nat.eqb (id r) (id s)) eqn:Hid; [|split; reflexivity].
    split; [reflexivity|]. intros Hro.
    apply Nat.eqb_eq in Hid. rewrite (NoDup_map_id_inj st r s Hnd Hr Hs Hid) in Hro.
    congruence.
  - apply Forall2_refl_in. intros r _. split; reflexivity.
Qed.

Lemma X7_witness :
  let st := [mkSession 1 "p" "a" 1000 (Some 1200) 1 None;
             mkSession 2 "p" "b" 3000 None 0 None] in
  NoDup (map id st)
  /\ Forall2 (fun r r' => fixed_columns r' = fixed_columns r /\ (is_open r = false -> r' = r))
       st (completeLatestSession 5000 true st).
Proof.
  intros st. assert (H : NoDup (map id st)) by (simpl; repeat constructor; simpl; intuition discriminate).
  split; [exact H | exact (X7_completeLatestSession_touches_only_open 5000 true st H)].
Defined.

Lemma filter_close_other (s : session) (l : store) :
  (forall r, In r l -> id r <> id s) ->
  filter (fun r => is_open r && negb (Nat.eqb (id r) (id s))) l = filter is_open l.
Proof.
  intros H. apply filter_ext_in. intros r Hr.
  destruct (Nat.eqb_spec (id r) (id s)) as [E|_]; [exfalso; exact (H r Hr E)|].
  apply andb_true_r.
Qed.

Lemma open_count_close_one (s : session) (st : store) :
  NoDup (map id st) -> In s st -> is_open s = true ->
  S (List.length (filter (fun r => is_open r && negb (Nat.eqb (id r) (id s))) st))
  = open_count st.
Proof.
  unfold open_count. induction st as [|x rest IH]; intros Hnd Hs Ho; [contradiction|].
  simpl in Hnd. inversion Hnd as [|? ? Hni Hnd']; subst.
  simpl. destruct (Nat.eqb_spec (id x) (id s)) as [E|E].
  - assert (x = s) as -> by (apply (NoDup_map_id_inj (x :: rest)); auto; left; reflexivity).
    rewrite Ho, andb_false_r, filter_close_other; [reflexivity|].
    intros r Hr Hid. apply Hni. rewrite <- Hid. apply in_map; exact Hr.
  - destruct Hs as [->|Hs]; [contradiction|].
    rewrite andb_true_r. destruct (is_open x); simpl; rewrite IH; auto.
Qed.

Lemma length_filter_map {A} (p : A -> bool) (f : A -> A) (l : list A) :
  List.length (filter p (map f l)) = List.length (filter (fun x => p (f x)) l).
Proof.
  induction l as [|x l IH]; simpl; [reflexivity|]. destruct (p (f x)); simpl; rewrite IH; reflexivity.
Qed.

(** X8: on a table with unique ids, [completeLatestSession] closes exactly
    one open row when there is one: the number of open rows drops by one
    (and stays 0 when there is none). *)
Theorem X8_completeLatestSession_open_count (c : Z) (a : bool) (st : store) :
  NoDup (map id st) ->
  open_count (completeLatestSession c a st) = (open_count st - 1)%nat.
Proof.
  intros Hnd. unfold completeLatestSession.
  destruct (pick_latest (filter is_open st)) as [s|] eqn:E.
  - destruct (pick_latest_open _ _ E) as [Hs [Hso _]].
    rewrite <- (open_count_close_one s st Hnd Hs Hso). rewrite Nat.sub_1_r. simpl.
    unfold open_count. rewrite length_filter_map. f_equal. apply filter_ext. intros r.
    destruct (Nat.eqb (id r) (id s)); simpl; [rewrite andb_false_r; reflexivity | rewrite andb_true_r; reflexivity].
  - apply pick_latest_None in E. unfold open_count. rewrite E. reflexivity.
Qed.

Lemma X8_witness :
  let st := [mkSession 1 "p" "a" 1000 (Some 1200) 1 None;
             mkSession 2 "p" "b" 3000 None 0 None;
             mkSession 3 "q" "c" 2000 None 0 None] in
  NoDup (map id st)
  /\ open_count (completeLatestSession 5000 true st) = (open_count st - 1)%nat.
Proof.
  intros st. assert (H : NoDup (map id st)) by (simpl; repeat constructor; simpl; intuition discriminate).
  split; [exact H | exact (X8_completeLatestSession_open_count 5000 true st H)].
Defined.

(** X9: two purges compose into one with the later cutoff, so purges commute
    and repeating a purge changes nothing. *)
Theorem X9_delete_before_compose (c1 c2 : Z) (st : store) :
  fst (delete_before c2 (fst (delete_before c1 st))) = fst (delete_before (Z.max c1 c2) st)
  /\ fst (delete_before c2 (fst (delete_before c1 st)))
     = fst (delete_before c1 (fst (delete_before c2 st))).
Proof.
  assert (H : forall a b, fst (delete_before b (fst (delete_before a st)))
                          = fst (delete_before (Z.max a b) st)).
  { intros a b. unfold delete_before; simpl.
    induction st as [|r rest IH]; simpl; [reflexivity|].
    destruct (startedAt r <? a) eqn:Ha, (startedAt r <? b) eqn:Hb,
             (startedAt r <? Z.max a b) eqn:Hm; simpl; rewrite ?Hb, ?IH; try reflexivity;
      rewrite ?Z.ltb_lt, ?Z.ltb_ge in *; lia. }
  split; [apply H|]. rewrite !H, Z.max_comm. reflexivity.
Qed.

Lemma pick_latest_app_last (l : store) (x : session) :
  (forall r, In r l -> startedAt r < startedAt x) -> pick_latest (l ++ [x]) = Some x.
Proof.
  induction l as [|r rest IH]; intros H; simpl; [reflexivity|].
  rewrite IH by (intros r' Hr'; apply H; right; exact Hr').
  assert (Hr : startedAt r < startedAt x) by (apply H; left; reflexivity).
  apply Z.ltb_lt in Hr. rewrite Hr. reflexivity.
Qed.

(** X10: a session logged with a [startedAt] later than every stored one is
    what [getLatestSession] returns next: open, with the given project,
    description and ticket, [isAutoCompleted = 0]. *)
Theorem X10_logSessionStart_then_getLatestSession sid p d t j (st st' : store) :
  (forall r, In r st -> startedAt r < t) ->
  logSessionStart sid p d t j st = Ok st' ->
  getLatestSession st' = Ok (mkSession sid p d t None 0 j).
Proof.
  intros Ht H. unfold logSessionStart in H.
  destruct (existsb _ st); inversion H; subst.
  unfold getLatestSession. rewrite pick_latest_app_last by exact Ht. reflexivity.
Qed.

Lemma X10_witness :
  let st := [mkSession 1 "p" "a" 1000 (Some 1200) 1 None] in
  (forall r, In r st -> startedAt r < 3000)
  /\ logSessionStart 2 "q" "b" 3000 None st = Ok (st ++ [mkSession 2 "q" "b" 3000 None 0 None])
  /\ getLatestSession (st ++ [mkSession 2 "q" "b" 3000 None 0 None]) = Ok (mkSession 2 "q" "b" 3000 None 0 None).
Proof.
  intros st.
  assert (H1 : forall r, In r st -> startedAt r < 3000) by (intros r [<-|[]]; simpl; lia).
  assert (H2 : logSessionStart 2 "q" "b" 3000 None st = Ok (st ++ [mkSession 2 "q" "b" 3000 None 0 None]))
    by reflexivity.
  split; [exact H1|]. split; [exact H2|].
  exact (X10_logSessionStart_then_getLatestSession 2 "q" "b" 3000 None st _ H1 H2).
Defined.

(* ------------------------------------------------------------------ *)
(** ** Further properties of [clockify.ts] and the commands *)

(** X11: when [getUser] and the POST succeed, [startTimer] starts one
    Clockify entry and logs one open row carrying exactly the project and the
    description ([finalDescription]) that were sent to Clockify, with
    [startedAt] the time read before the POST and the given Jira ticket. *)
Theorem X11_startTimer_logs_what_it_started (e : env) (js : option string) (t : Z) (w : world)
    (p : string) (desc jt : option string) :
  user_ok e = true -> post_ok e = true ->
  (forall r, In r (w_store w) -> id r <> w_next_id w) ->
  let fd := finalDescription desc jt js in
  let row := mkSession (w_next_id w) p fd t None 0 jt in
  startTimer e js t w p desc jt
  = (mkWorld (w_store w ++ [row]) (Some (p, fd))
       (w_trace w ++ [EvRemoteStart p fd; EvAppend row]) (w_lastResumeAt w) (S (w_next_id w)),
     Some (p, fd)).
Proof.
  intros Hu Hp Hids fd row. unfold startTimer. rewrite Hu, Hp. simpl.
  rewrite (logSessionStart_fresh _ _ _ _ _ _ Hids).
  destruct w as [st rem tr lr nid]. unfold emit, set_store, set_remote, bump_id; simpl.
  rewrite <- app_assoc. reflexivity.
Qed.

Lemma X11_witness :
  let e := mkEnv true true true true in
  let w := mkWorld [mkSession 1 "p" "a" 1000 (Some 1200) 0 None] None [] 0 2 in
  let fd := finalDescription None (Some "TICKET-123"%string) (Some "Fix the login button"%string) in
  let row := mkSession (w_next_id w) "p" fd 5000 None 0 (Some "TICKET-123"%string) in
  startTimer e (Some "Fix the login button"%string) 5000 w "p" None (Some "TICKET-123"%string)
  = (mkWorld (w_store w ++ [row]) (Some ("p"%string, fd))
       (w_trace w ++ [EvRemoteStart "p" fd; EvAppend row]) (w_lastResumeAt w) (S (w_next_id w)),
     Some ("p"%string, fd)).
Proof.
  intros e w fd row.
  apply (X11_startTimer_logs_what_it_started e _ 5000 w "p" None (Some "TICKET-123"%string));
    [reflexivity | reflexivity | intros r [<-|[]]; discriminate].
Defined.

(** X12: when [getUser] or the POST fails, [startTimer] returns [null] and
    logs no row: the table, the running Clockify entry and the effects are
    as before. *)
Theorem X12_startTimer_failure_logs_nothing (e : env) (js : option string) (t : Z) (w : world)
    (p : string) (desc jt : option string) :
  user_ok e = false \/ post_ok e = false ->
  let '(w', res) := startTimer e js t w p desc jt in
  res = None /\ w_store w' = w_store w /\ w_remote w' = w_remote w /\ w_trace w' = w_trace w.
Proof.
  intros H. unfold startTimer.
  destruct (user_ok e) eqn:Hu; simpl; [|repeat split].
  destruct H as [H|H]; [discriminate|]. rewrite H. repeat split.
Qed.

Lemma X12_witness :
  let e := mkEnv true false true true in
  let w := mkWorld [] None [] 0 2 in
  (user_ok e = false \/ post_ok e = false)
  /\ let '(w', res) := startTimer e None 5000 w "p" (Some "work"%string) None in
     res = None /\ w_store w' = w_store w /\ w_remote w' = w_remote w /\ w_trace w' = w_trace w.
Proof.
  intros e w. assert (H : user_ok e = false \/ post_ok e = false) by (right; reflexivity).
  split; [exact H | exact (X12_startTimer_failure_logs_nothing e None 5000 w "p" (Some "work"%string) None H)].
Defined.

(** X13: the [stop] command reads [getLatestSession()] before calling
    [stopTimer]; with no row in the table it throws there, so the PATCH is
    never sent and a running Clockify entry keeps running. *)
Theorem X13_stop_command_empty_table_throws (e : env) (now : Z) (w : world) :
  w_store w = [] -> stop_command e now w = (w, Throw ZodError).
Proof. intros H. unfold stop_command. rewrite H. reflexivity. Qed.

Lemma X13_witness :
  let w := mkWorld [] (Some ("p"%string, "work"%string)) [] 0 1 in
  w_store w = [] /\ stop_command (mkEnv true true true true) 5000 w = (w, Throw ZodError).
Proof.
  intros w. split; [reflexivity | apply X13_stop_command_empty_table_throws; reflexivity].
Defined.

Lemma pick_latest_filter_open (l : store) (s : session) :
  pick_latest l = Some s -> is_open s = true -> pick_latest (filter is_open l) = Some s.
Proof.
  revert s; induction l as [|r rest IH]; intros s H Ho; cbn [pick_latest] in H; [discriminate|].
  cbn [filter]. destruct (pick_latest rest) as [b|] eqn:E.
  - destruct (startedAt r <? startedAt b) eqn:Hlt; injection H as <-.
    + specialize (IH b eq_refl Ho).
      destruct (is_open r); cbn [pick_latest]; rewrite IH; [rewrite Hlt|]; reflexivity.
    + rewrite Ho. cbn [pick_latest].
      destruct (pick_latest (filter is_open rest)) as [b'|] eqn:E'; [|reflexivity].
      assert (Hb' : startedAt b' <= startedAt b).
      { apply (pick_latest_max rest b E). apply pick_latest_In in E'.
        apply filter_In in E' as [E' _]. exact E'. }
      apply Z.ltb_ge in Hlt. replace (startedAt r <? startedAt b') with false; [reflexivity|].
      symmetry. apply Z.ltb_ge. lia.
  - apply pick_latest_None in E; subst. injection H as <-. cbn [filter]. rewrite Ho. reflexivity.
Qed.

Lemma pick_latest_map (f : session -> session) (l : store) :
  (forall r, startedAt (f r) = startedAt r) -> pick_latest (map f l) = option_map f (pick_latest l).
Proof.
  intros Hf. induction l as [|r rest IH]; simpl; [reflexivity|]. rewrite IH.
  destruct (pick_latest rest) as [b|]; simpl; [|reflexivity].
  rewrite !Hf. destruct (startedAt r <? startedAt b); reflexivity.
Qed.

Lemma close_latest_pick (c : Z) (a : bool) (st : store) (s : session) :
  pick_latest st = Some s -> is_open s = true ->
  pick_latest (completeLatestSession c a st) = Some (close_row c a s).
Proof.
  intros Hpl Ho. unfold completeLatestSession. rewrite (pick_latest_filter_open _ _ Hpl Ho).
  rewrite pick_latest_map by (intros r; destruct (Nat.eqb (id r) (id s)); reflexivity).
  rewrite Hpl. cbn [option_map]. rewrite Nat.eqb_refl. reflexivity.
Qed.

(** A latest row with [isAutoCompleted = 0] is never resumed:
    [safeRestartTimerIfNeeded] leaves the world as it is, whatever the HTTP
    calls and the clock do. *)
Lemma restart_after_manual_stop (e : env) (w : world) (r : session) (ts : list Z) :
  pick_latest (w_store w) = Some r -> isAutoCompleted r = 0 ->
  fst (run_restart e w REntry ts) = w.
Proof.
  intros Hpl Ha.
  destruct ts as [|t1 [|t2 [|t3 ts]]]; cbn [run_restart]; restart_simpl; [reflexivity| | |].
  - destruct (t1 - w_lastResumeAt w <? RESUME_COOLDOWN_MS); reflexivity.
  - destruct (t1 - w_lastResumeAt w <? RESUME_COOLDOWN_MS); [reflexivity|].
    restart_simpl. unfold getLatestSession. rewrite Hpl. reflexivity.
  - destruct (t1 - w_lastResumeAt w <? RESUME_COOLDOWN_MS).
    { cbn [run_restart]; restart_simpl. rewrite run_restart_done. reflexivity. }
    restart_simpl. unfold getLatestSession. rewrite Hpl. restart_simpl.
    destruct (getActiveTimer e w).
    { cbn [run_restart]; restart_simpl. rewrite run_restart_done. reflexivity. }
    assert (He : eligible r (t3 - TWO_HOURS_MS) = false).
    { unfold eligible. rewrite Ha. reflexivity. }
    rewrite He, run_restart_done. reflexivity.
Qed.

(** X14: when the latest row is the open one of the running Clockify entry,
    a successful [stop] closes it with [isAutoCompleted = 0] and ends the
    Clockify entry; from then on [safeRestartTimerIfNeeded] (the monitor's
    auto-resume) changes nothing, whatever the HTTP calls and the clock do:
    a manual stop is never resumed. *)
Theorem X14_manual_stop_never_resumed (e : env) (now : Z) (w : world) (s : session)
    (entry : string * string) :
  stop_ok e = true -> w_remote w = Some entry ->
  pick_latest (w_store w) = Some s -> is_open s = true ->
  let '(w', res) := stop_command e now w in
  res = Ret true /\ w_remote w' = None
  /\ getLatestSession (w_store w') = Ok (close_row now false s)
  /\ forall (e' : env) (ts : list Z), fst (run_restart e' w' REntry ts) = w'.
Proof.
  intros Hs Hr Hpl Ho.
  pose proof (close_latest_pick now false _ _ Hpl Ho) as Hc.
  assert (Hg : forall w', w_store w' = completeLatestSession now false (w_store w) ->
    getLatestSession (w_store w') = Ok (close_row now false s)
    /\ forall (e' : env) (ts : list Z), fst (run_restart e' w' REntry ts) = w').
  { intros w' Hw'. rewrite Hw'. unfold getLatestSession. rewrite Hc. split; [reflexivity|].
    intros e' ts. apply (restart_after_manual_stop e' w' (close_row now false s)); [|reflexivity].
    rewrite Hw'. exact Hc. }
  unfold stop_command, getLatestSession. rewrite Hpl. unfold stopTimer. rewrite Hs, Hr.
  cbn [fst snd]. unfold closeLatest.
  destruct (jiraTicket s) as [tk|]; [destruct (truthy (Some tk)); [destruct (60 <=? _)|]|];
    (split; [reflexivity|]); (split; [reflexivity|]); apply Hg; reflexivity.
Qed.

Lemma X14_witness :
  let e := mkEnv true true true true in
  let s := mkSession 1 "proj" "work" 1000000 None 0 None in
  let w := mkWorld [mkSession 0 "proj" "old" 500000 (Some 900000) 1 None; s]
             (Some ("proj"%string, "work"%string)) [] 0 2 in
  (stop_ok e = true /\ w_remote w = Some ("proj"%string, "work"%string)
   /\ pick_latest (w_store w) = Some s /\ is_open s = true)
  /\ let '(w', res) := stop_command e 2000000 w in
     res = Ret true /\ w_remote w' = None
     /\ getLatestSession (w_store w') = Ok (close_row 2000000 false s)
     /\ forall (e' : env) (ts : list Z), fst (run_restart e' w' REntry ts) = w'.
Proof.
  intros e s w. split; [repeat split|].
  exact (X14_manual_stop_never_resumed e 2000000 w s ("proj"%string, "work"%string)
           eq_refl eq_refl eq_refl eq_refl).
Defined.

Lemma round_seconds_ge_60 (x : Z) : (60 <=? round_seconds x) = (59500 <=? x).
Proof.
  unfold round_seconds. destruct (Z.leb_spec 59500 x) as [H|H].
  - apply Z.leb_le. change 60 with (60000 / 1000). apply Z.div_le_mono; lia.
  - apply Z.leb_gt. apply Z.div_lt_upper_bound; lia.
Qed.

(** X15: after a successful stop, both [stop] and the monitor's
    [stopTimerAndLog] end the Clockify entry, close the latest open row
    ([isAutoCompleted] 0 for [stop], 1 for the monitor), and send a Jira
    worklog exactly when the latest row has a non-empty ticket and ran at
    least 59.5 s ([Math.round] of the seconds reaching 60), for the rounded
    seconds. *)
Theorem X15_stop_jira_threshold (e : env) (now : Z) (w : world) (s : session)
    (entry : string * string) :
  stop_ok e = true -> active_ok e = true -> w_remote w = Some entry ->
  pick_latest (w_store w) = Some s ->
  let jira := match jiraTicket s with
              | Some tk => if negb (String.eqb tk "") && (59500 <=? now - startedAt s)
                           then [EvJira tk ((now - startedAt s + 500) / 1000)] else []
              | None => []
              end in
  w_trace (fst (stop_command e now w)) = w_trace w ++ [EvRemoteStop; EvClose now false] ++ jira
  /\ w_trace (fst (stopTimerAndLog e now w)) = w_trace w ++ [EvRemoteStop; EvClose now true] ++ jira.
Proof.
  intros Hs Ha Hr Hpl jira. subst jira.
  unfold stop_command, stopTimerAndLog, getActiveTimer, getLatestSession.
  rewrite Ha, Hr, Hpl. unfold stopTimer. rewrite Hs, Hr. cbn [fst snd].
  rewrite round_seconds_ge_60.
  destruct (jiraTicket s) as [tk|]; [cbn [truthy]; destruct (negb (String.eqb tk ""));
    [destruct (59500 <=? now - startedAt s)|]|]; cbn;
    rewrite <- ?app_assoc; split; reflexivity.
Qed.

Lemma X15_witness :
  let e := mkEnv true true true true in
  let s := mkSession 1 "proj" "work" 1000000 None 0 (Some "TICKET-123"%string) in
  let w := mkWorld [s] (Some ("proj"%string, "work"%string)) [] 0 2 in
  let now := 1059500 in
  let jira := match jiraTicket s with
              | Some tk => if negb (String.eqb tk "") && (59500 <=? now - startedAt s)
                           then [EvJira tk ((now - startedAt s + 500) / 1000)] else []
              | None => []
              end in
  (stop_ok e = true /\ active_ok e = true /\ pick_latest (w_store w) = Some s)
  /\ (w_trace (fst (stop_command e now w)) = w_trace w ++ [EvRemoteStop; EvClose now false] ++ jira
      /\ w_trace (fst (stopTimerAndLog e now w)) = w_trace w ++ [EvRemoteStop; EvClose now true] ++ jira).
Proof.
  intros e s w now jira. split; [repeat split|].
  exact (X15_stop_jira_threshold e now w s ("proj"%string, "work"%string)
           eq_refl eq_refl eq_refl eq_refl).
Defined.

(** X16: for a non-negative running time, [status] prints a minute count in
    [0, 59], and [hours]h [minutes]m is the running time in whole minutes. *)
Theorem X16_status_hours_minutes (ms : Z) :
  0 <= ms ->
  0 <= status_minutes ms < 60 /\ status_hours ms * 60 + status_minutes ms = ms / 60000.
Proof.
  intros H. unfold status_hours, status_minutes.
  rewrite Z.rem_mod_nonneg by lia.
  pose proof (Z.mod_pos_bound ms 3600000 ltac:(lia)) as Hb.
  split.
  - split; [apply Z.div_pos; lia|]. apply Z.div_lt_upper_bound; lia.
  - rewrite (Z.div_mod ms 3600000) at 3 by lia.
    replace (3600000 * (ms / 3600000) + ms mod 3600000)
      with (ms / 3600000 * 60 * 60000 + ms mod 3600000) by ring.
    rewrite Z.div_add_l by lia. reflexivity.
Qed.

Lemma X16_witness :
  0 <= 5423000 /\ 0 <= status_minutes 5423000 < 60
  /\ status_hours 5423000 * 60 + status_minutes 5423000 = 5423000 / 60000.
Proof.
  split; [lia|]. apply X16_status_hours_minutes. lia.
Defined.

Lemma fetch_pages_all (fetch : nat -> option (list project)) (pages : list (list project)) :
  forall fuel page acc,
  (forall i, (i < List.length pages)%nat -> fetch (page + i)%nat = Some (nth i pages [])) ->
  Forall (fun d => d <> []) pages ->
  fetch (page + List.length pages)%nat = Some [] ->
  (List.length pages < fuel)%nat ->
  fetch_pages fetch fuel page acc = Some (acc ++ List.concat pages).
Proof.
  induction pages as [|d ds IH]; intros fuel page acc Hf Hne Hend Hfuel;
    destruct fuel as [|f]; try (cbn in Hfuel; lia).
  - cbn. rewrite Nat.add_0_r in Hend. rewrite Hend, app_nil_r. reflexivity.
  - cbn. pose proof (Hf 0%nat ltac:(cbn; lia)) as H0. rewrite Nat.add_0_r in H0.
    inversion Hne as [|? ? Hd Hds]; subst.
    destruct d as [|x xs]; [contradiction|]. cbn [nth] in H0. rewrite H0.
    rewrite (IH f (S page)); [rewrite app_assoc; reflexivity | | exact Hds | | cbn in Hfuel; lia].
    + intros i Hi. replace (S page + i)%nat with (page + S i)%nat by lia.
      apply (Hf (S i)). cbn; lia.
    + replace (S page + List.length ds)%nat with (page + List.length ((x :: xs) :: ds))%nat
        by (cbn; lia). exact Hend.
Qed.

(** X17: [getProjects] requests pages 1, 2, ... until an empty page and
    returns the concatenation of the pages, in order. *)
Theorem X17_getProjects_concat (fetch : nat -> option (list project))
    (pages : list (list project)) (fuel : nat) :
  (forall i, (i < List.length pages)%nat -> fetch (S i) = Some (nth i pages [])) ->
  Forall (fun d => d <> []) pages ->
  fetch (S (List.length pages)) = Some [] ->
  (List.length pages < fuel)%nat ->
  getProjects fetch fuel = List.concat pages.
Proof.
  intros Hf Hne Hend Hfuel. unfold getProjects.
  rewrite (fetch_pages_all fetch pages fuel 1 []); [reflexivity | exact Hf | exact Hne | exact Hend | exact Hfuel].
Qed.

Lemma X17_witness :
  let pages := [[("p1"%string, "Alpha"%string); ("p2"%string, "Beta"%string)];
                [("p3"%string, "Gamma"%string)]] in
  (forall i, (i < List.length pages)%nat -> two_pages (S i) = Some (nth i pages []))
  /\ getProjects two_pages 10 = List.concat pages.
Proof.
  intros pages.
  assert (Hf : forall i, (i < List.length pages)%nat -> two_pages (S i) = Some (nth i pages [])).
  { intros [|[|i]] Hi; [reflexivity | reflexivity | cbn in Hi; lia]. }
  split; [exact Hf|].
  apply (X17_getProjects_concat two_pages pages 10 Hf);
    [repeat constructor; discriminate | reflexivity | cbn; lia].
Defined.

Lemma fetch_pages_fail (fetch : nat -> option (list project)) (pages : list (list project)) :
  forall fuel page acc,
  (forall i, (i < List.length pages)%nat -> fetch (page + i)%nat = Some (nth i pages [])) ->
  Forall (fun d => d <> []) pages ->
  fetch (page + List.length pages)%nat = None ->
  fetch_pages fetch fuel page acc = None.
Proof.
  induction pages as [|d ds IH]; intros fuel page acc Hf Hne Hend;
    destruct fuel as [|f]; try reflexivity.
  - cbn. rewrite Nat.add_0_r in Hend. rewrite Hend. reflexivity.
  - cbn. pose proof (Hf 0%nat ltac:(cbn; lia)) as H0. rewrite Nat.add_0_r in H0.
    inversion Hne as [|? ? Hd Hds]; subst.
    destruct d as [|x xs]; [contradiction|]. cbn [nth] in H0. rewrite H0.
    apply (IH f (S page)); [| exact Hds |].
    + intros i Hi. replace (S page + i)%nat with (page + S i)%nat by lia.
      apply (Hf (S i)). cbn; lia.
    + replace (S page + List.length ds)%nat with (page + List.length ((x :: xs) :: ds))%nat
        by (cbn; lia). exact Hend.
Qed.

(** X18: a request that fails after any number of successful pages makes
    [getProjects] return [[]]: the pages already fetched are dropped. *)
Theorem X18_getProjects_failure_drops_pages (fetch : nat -> option (list project))
    (pages : list (list project)) (fuel : nat) :
  (forall i, (i < List.length pages)%nat -> fetch (S i) = Some (nth i pages [])) ->
  Forall (fun d => d <> []) pages ->
  fetch (S (List.length pages)) = None ->
  getProjects fetch fuel = [].
Proof.
  intros Hf Hne Hend. unfold getProjects.
  rewrite (fetch_pages_fail fetch pages fuel 1 []); [reflexivity | exact Hf | exact Hne | exact Hend].
Qed.

Lemma X18_witness :
  let pages := [[("p1"%string, "Alpha"%string)]] in
  (forall i, (i < List.length pages)%nat -> fail_page_two (S i) = Some (nth i pages []))
  /\ getProjects fail_page_two 10 = [].
Proof.
  intros pages.
  assert (Hf : forall i, (i < List.length pages)%nat -> fail_page_two (S i) = Some (nth i pages [])).
  { intros [|i] Hi; [reflexivity | cbn in Hi; lia]. }
  split; [exact Hf|].
  apply (X18_getProjects_failure_drops_pages fail_page_two pages 10 Hf);
    [repeat constructor; discriminate | reflexivity].
Defined.

(* ------------------------------------------------------------------ *)
(** ** The lock poller *)




(* ------------------------------------------------------------------ *)
(** ** [scripts/log-calendar-events.ts] *)

Lemma gep_set_same (k : string) (v : option string) (t : event_projects) :
  getEventProject k (setEventProject k v t) = Some v.
Proof.
  unfold setEventProject. rewrite getEventProject_app, getEventProject_filter_same.
  simpl. rewrite String.eqb_refl. reflexivity.
Qed.

Lemma gep_set_other (k k' : string) (v : option string) (t : event_projects) :
  k' <> k -> getEventProject k' (setEventProject k v t) = getEventProject k' t.
Proof.
  intros Hne. unfold setEventProject.
  rewrite getEventProject_app, getEventProject_filter_other by exact Hne.
  simpl. destruct (getEventProject k' t); [reflexivity|].
  destruct (String.eqb_spec k k'); [congruence | reflexivity].
Qed.

(** [prompt_then_log] writes the answer for [sm] and adds a prompt for [sm],
    followed by a [logTime] of [sm] or nothing. *)
Lemma prompt_then_log_shape (choose : nat -> option string) (sm st en : string)
    (tbl : event_projects) (tr : list cal_action) :
  let '(tbl', tr') := prompt_then_log choose sm st en tbl tr in
  tbl' = setEventProject sm (choose (prompt_count tr)) tbl
  /\ exists ext, tr' = tr ++ CalPrompt sm :: ext /\ forall a, In a ext -> cal_label a = sm
                 /\ (forall l, is_prompt_for l a = false).
Proof.
  unfold prompt_then_log. destruct (choose (prompt_count tr)) as [q|]; [destruct (truthy (Some q))|];
    (split; [reflexivity|]).
  - exists [CalLogTime q st en sm]. split; [rewrite <- app_assoc; reflexivity|].
    intros a [<-|[]]. split; reflexivity.
  - exists []. split; [reflexivity | intros a []].
  - exists []. split; [reflexivity | intros a []].
Qed.

(** The event-project lookup of the loop when [-p] is not truthy. *)
Lemma event_lookup_no_cli (cli : option string) (sm : string) (tbl : event_projects) :
  truthy cli = false ->
  match cli with
  | Some p => if truthy cli then Some (Some p) else getEventProject sm tbl
  | None => getEventProject sm tbl
  end = getEventProject sm tbl.
Proof. intros H. destruct cli; [rewrite H|]; reflexivity. Qed.

Lemma log_events_cli_gen (p : string) (choose : nat -> option string) (events : list cal_event) :
  truthy (Some p) = true ->
  forall tbl tr,
  fold_left (process_event (Some p) choose) events (tbl, tr)
  = (tbl, tr ++ flat_map (fun ev =>
                  if timed ev then
                    match summary ev, start_dateTime ev, end_dateTime ev with
                    | Some sm, Some st, Some en => [CalLogTime p st en sm]
                    | _, _, _ => []
                    end
                  else []) events).
Proof.
  intros Hp. induction events as [|ev rest IH]; intros tbl tr; cbn [fold_left flat_map];
    [rewrite app_nil_r; reflexivity|].
  unfold process_event at 2.
  destruct (truthy (start_date ev)) eqn:Hsd.
  - replace (timed ev) with false by (unfold timed; rewrite Hsd; reflexivity).
    rewrite IH. reflexivity.
  - destruct (timed ev); [|rewrite IH; reflexivity].
    destruct (summary ev) as [sm|], (start_dateTime ev) as [st|], (end_dateTime ev) as [en|];
      try (rewrite IH; reflexivity).
    rewrite Hp. assert (Hne : String.eqb p "" = false).
    { cbn in Hp. destruct (String.eqb p ""); [discriminate | reflexivity]. }
    rewrite Hne, IH, <- app_assoc. reflexivity.
Qed.

(** X22: with a truthy [-p] project id, the script never prompts and never
    writes [event_projects]; it calls [logTime] on that project for every
    timed event, in order, a stored "skip" included; all-day events and
    events missing a summary or a time are passed over. *)
Theorem X22_cli_project_logs_every_timed_event (p : string) (choose : nat -> option string)
    (tbl : event_projects) (events : list cal_event) :
  truthy (Some p) = true ->
  log_events (Some p) choose tbl events
  = (tbl, flat_map (fun ev =>
             if timed ev then
               match summary ev, start_dateTime ev, end_dateTime ev with
               | Some sm, Some st, Some en => [CalLogTime p st en sm]
               | _, _, _ => []
               end
             else []) events).
Proof. intros Hp. unfold log_events. apply (log_events_cli_gen p choose events Hp tbl []). Qed.

Lemma X22_witness :
  let evs := [mkCalEvent (Some "Standup"%string) None (Some "09:00"%string) (Some "09:15"%string);
              mkCalEvent (Some "Holiday"%string) (Some "2025-01-01"%string) None None;
              mkCalEvent (Some "Retro"%string) None (Some "15:00"%string) (Some "16:00"%string)] in
  let tbl := [("Retro"%string, None)] in
  truthy (Some "p1"%string) = true
  /\ log_events (Some "p1"%string) (fun _ => None) tbl evs
     = (tbl, flat_map (fun ev =>
               if timed ev then
                 match summary ev, start_dateTime ev, end_dateTime ev with
                 | Some sm, Some st, Some en => [CalLogTime "p1" st en sm]
                 | _, _, _ => []
                 end
               else []) evs).
Proof.
  intros evs tbl. split; [reflexivity|].
  apply X22_cli_project_logs_every_timed_event. reflexivity.
Defined.

Lemma skip_kept_step (cli : option string) (choose : nat -> option string) (sm : string)
    (tbl : event_projects) (tr : list cal_action) (ev : cal_event) :
  truthy cli = false ->
  getEventProject sm tbl = Some None -> (forall a, In a tr -> cal_label a <> sm) ->
  let '(tbl', tr') := process_event cli choose (tbl, tr) ev in
  getEventProject sm tbl' = Some None /\ forall a, In a tr' -> cal_label a <> sm.
Proof.
  intros Hcli Hg Htr. unfold process_event.
  destruct (truthy (start_date ev)); [split; assumption|].
  destruct (timed ev); [|split; assumption].
  destruct (summary ev) as [sm'|], (start_dateTime ev) as [st|], (end_dateTime ev) as [en|];
    try (split; assumption).
  rewrite event_lookup_no_cli by exact Hcli.
  destruct (String.eqb_spec sm' sm) as [->|Hne].
  { rewrite Hg. split; assumption. }
  assert (Hptl : let '(tbl', tr') := prompt_then_log choose sm' st en tbl tr in
                 getEventProject sm tbl' = Some None /\ forall a, In a tr' -> cal_label a <> sm).
  { pose proof (prompt_then_log_shape choose sm' st en tbl tr) as Hs.
    destruct (prompt_then_log choose sm' st en tbl tr) as [tbl' tr'].
    destruct Hs as [-> [ext [-> Hext]]]. split.
    - rewrite gep_set_other by congruence. exact Hg.
    - intros a Ha. apply in_app_or in Ha as [Ha|[<-|Ha]]; [exact (Htr a Ha) | cbn; congruence |].
      rewrite (proj1 (Hext a Ha)). congruence. }
  destruct (getEventProject sm' tbl) as [[q|]|]; [| split; assumption | exact Hptl].
  destruct (String.eqb q ""); [exact Hptl|]. split; [exact Hg|].
  intros a Ha. apply in_app_or in Ha as [Ha|[<-|[]]]; [exact (Htr a Ha) | cbn; congruence].
Qed.

(** X23: without a truthy [-p], an event name stored as "skip" (NULL in
    [event_projects]) is never prompted for and never logged, and the skip
    stays stored through the run. *)
Theorem X23_stored_skip_respected (cli : option string) (choose : nat -> option string)
    (sm : string) (tbl : event_projects) (events : list cal_event) :
  truthy cli = false -> getEventProject sm tbl = Some None ->
  let '(tbl', tr) := log_events cli choose tbl events in
  getEventProject sm tbl' = Some None /\ forall a, In a tr -> cal_label a <> sm.
Proof.
  intros Hcli Hg. unfold log_events.
  assert (Hinv : forall evs tbl0 tr0, getEventProject sm tbl0 = Some None ->
            (forall a, In a tr0 -> cal_label a <> sm) ->
            let '(tbl', tr) := fold_left (process_event cli choose) evs (tbl0, tr0) in
            getEventProject sm tbl' = Some None /\ forall a, In a tr -> cal_label a <> sm).
  { induction evs as [|ev rest IH]; intros tbl0 tr0 H1 H2; [split; assumption|].
    cbn [fold_left].
    pose proof (skip_kept_step cli choose sm tbl0 tr0 ev Hcli H1 H2) as Hs.
    destruct (process_event cli choose (tbl0, tr0) ev) as [tbl1 tr1].
    destruct Hs as [Hs1 Hs2]. exact (IH tbl1 tr1 Hs1 Hs2). }
  apply Hinv; [exact Hg | intros a []].
Qed.

Lemma X23_witness :
  let evs := [mkCalEvent (Some "Lunch"%string) None (Some "12:00"%string) (Some "13:00"%string);
              mkCalEvent (Some "Retro"%string) None (Some "15:00"%string) (Some "16:00"%string);
              mkCalEvent (Some "Lunch"%string) None (Some "12:00"%string) (Some "12:30"%string)] in
  let tbl := [("Lunch"%string, None)] in
  truthy None = false /\ getEventProject "Lunch" tbl = Some None
  /\ let '(tbl', tr) := log_events None (fun _ => Some "p1"%string) tbl evs in
     getEventProject "Lunch" tbl' = Some None /\ forall a, In a tr -> cal_label a <> "Lunch"%string.
Proof.
  intros evs tbl. split; [reflexivity|]. split; [reflexivity|].
  apply X23_stored_skip_respected; reflexivity.
Defined.

Lemma prompts_for_app (sm : string) (l1 l2 : list cal_action) :
  prompts_for sm (l1 ++ l2) = (prompts_for sm l1 + prompts_for sm l2)%nat.
Proof. unfold prompts_for. rewrite filter_app, length_app. reflexivity. Qed.

Lemma prompts_for_ptl (choose : nat -> option string) (sm sm' st en : string)
    (tbl : event_projects) (tr : list cal_action) :
  let '(tbl', tr') := prompt_then_log choose sm' st en tbl tr in
  tbl' = setEventProject sm' (choose (prompt_count tr)) tbl
  /\ prompts_for sm tr' = (prompts_for sm tr + if String.eqb sm' sm then 1 else 0)%nat.
Proof.
  pose proof (prompt_then_log_shape choose sm' st en tbl tr) as Hs.
  destruct (prompt_then_log choose sm' st en tbl tr) as [tbl' tr'].
  destruct Hs as [Ht [ext [-> Hext]]]. split; [exact Ht|].
  rewrite prompts_for_app. f_equal.
  assert (H0 : prompts_for sm ext = 0%nat).
  { clear -Hext. induction ext as [|a ext IH]; [reflexivity|].
    unfold prompts_for in *. cbn [filter]. rewrite (proj2 (Hext a (or_introl eq_refl))).
    apply IH. intros b Hb. apply Hext. right. exact Hb. }
  unfold prompts_for in *. cbn [filter is_prompt_for].
  destruct (String.eqb sm' sm); cbn; rewrite H0; reflexivity.
Qed.

Lemma prompt_once_step (cli : option string) (choose : nat -> option string) (sm : string)
    (tbl : event_projects) (tr : list cal_action) (ev : cal_event) :
  (forall n, choose n <> Some ""%string) ->
  (prompts_for sm tr <= 1)%nat -> (prompts_for sm tr = 1%nat -> settled sm tbl = true) ->
  let '(tbl', tr') := process_event cli choose (tbl, tr) ev in
  (prompts_for sm tr' <= 1)%nat /\ (prompts_for sm tr' = 1%nat -> settled sm tbl' = true).
Proof.
  intros Hch H1 H2. unfold process_event.
  destruct (truthy (start_date ev)); [split; assumption|].
  destruct (timed ev); [|split; assumption].
  destruct (summary ev) as [sm'|], (start_dateTime ev) as [st|], (end_dateTime ev) as [en|];
    try (split; assumption).
  assert (Hlog : forall p, (prompts_for sm (tr ++ [CalLogTime p st en sm']) <= 1)%nat
                 /\ (prompts_for sm (tr ++ [CalLogTime p st en sm']) = 1%nat -> settled sm tbl = true)).
  { intros p. rewrite prompts_for_app. replace (prompts_for sm [CalLogTime p st en sm']) with 0%nat
      by reflexivity. rewrite Nat.add_0_r. split; assumption. }
  (* the prompt, when the stored answer for [sm'] is missing or empty *)
  assert (Hptl : (sm' = sm -> settled sm tbl = false) ->
            let '(tbl', tr') := prompt_then_log choose sm' st en tbl tr in
            (prompts_for sm tr' <= 1)%nat /\ (prompts_for sm tr' = 1%nat -> settled sm tbl' = true)).
  { intros Hns. pose proof (prompts_for_ptl choose sm sm' st en tbl tr) as Hp.
    destruct (prompt_then_log choose sm' st en tbl tr) as [tbl' tr'].
    destruct Hp as [-> ->].
    destruct (String.eqb_spec sm' sm) as [->|Hne].
    - assert (H0 : prompts_for sm tr = 0%nat).
      { specialize (Hns eq_refl). destruct (prompts_for sm tr) as [|[|k]] eqn:E; [reflexivity | | lia].
        rewrite (H2 eq_refl) in Hns. discriminate. }
      rewrite H0. split; [lia|]. intros _. unfold settled. rewrite gep_set_same.
      specialize (Hch (prompt_count tr)).
      destruct (choose (prompt_count tr)) as [q|]; [|reflexivity].
      destruct (String.eqb_spec q ""); [congruence | reflexivity].
    - rewrite Nat.add_0_r. split; [exact H1|]. intros Hc. unfold settled.
      rewrite gep_set_other by congruence. exact (H2 Hc). }
  destruct cli as [p|]; [destruct (truthy (Some p)) eqn:Hcli|]; cbv beta iota.
  1: { assert (Hne : String.eqb p "" = false).
       { cbn in Hcli. destruct (String.eqb p ""); [discriminate | reflexivity]. }
       rewrite Hne. apply Hlog. }
  all: destruct (getEventProject sm' tbl) as [[q|]|] eqn:Eg; [| split; assumption |];
    [destruct (String.eqb_spec q "") as [->|Hq]; [|apply Hlog]|];
    apply Hptl; intros ->; unfold settled; rewrite Eg; reflexivity.
Qed.

(** X24: when no answer to a prompt is an empty project id (the choices are
    "Skip" and the projects' ids), the script prompts at most once per event
    name in a run: the answer is stored with [setEventProject] and found by
    [getEventProject] for the later events of that name. *)
Theorem X24_prompt_at_most_once_per_name (cli : option string) (choose : nat -> option string)
    (tbl : event_projects) (events : list cal_event) (sm : string) :
  (forall n, choose n <> Some ""%string) ->
  (prompts_for sm (snd (log_events cli choose tbl events)) <= 1)%nat.
Proof.
  intros Hch. unfold log_events.
  assert (Hinv : forall evs tbl0 tr0, (prompts_for sm tr0 <= 1)%nat ->
            (prompts_for sm tr0 = 1%nat -> settled sm tbl0 = true) ->
            (prompts_for sm (snd (fold_left (process_event cli choose) evs (tbl0, tr0))) <= 1)%nat).
  { induction evs as [|ev rest IH]; intros tbl0 tr0 H1 H2; [exact H1|].
    cbn [fold_left].
    pose proof (prompt_once_step cli choose sm tbl0 tr0 ev Hch H1 H2) as Hs.
    destruct (process_event cli choose (tbl0, tr0) ev) as [tbl1 tr1].
    destruct Hs as [Hs1 Hs2]. exact (IH tbl1 tr1 Hs1 Hs2). }
  apply Hinv; [cbn; lia | discriminate].
Qed.

Lemma X24_witness :
  let evs := [mkCalEvent (Some "Standup"%string) None (Some "09:00"%string) (Some "09:15"%string);
              mkCalEvent (Some "Retro"%string) None (Some "15:00"%string) (Some "16:00"%string);
              mkCalEvent (Some "Standup"%string) None (Some "09:00"%string) (Some "09:20"%string)] in
  let choose := fun n : nat => if Nat.eqb n 0 then Some "p1"%string else None in
  (forall n, choose n <> Some ""%string)
  /\ (prompts_for "Standup" (snd (log_events None choose [] evs)) <= 1)%nat.
Proof.
  intros evs choose.
  assert (Hch : forall n, choose n <> Some ""%string).
  { intros n. unfold choose. destruct (Nat.eqb n 0); discriminate. }
  split; [exact Hch | exact (X24_prompt_at_most_once_per_name None choose [] evs "Standup" Hch)].
Defined.

(* ------------------------------------------------------------------ *)
(** ** The project choices of [start] *)

Lemma map_pair_id (l : list project) : map (fun p => (fst p, snd p)) l = l.
Proof. induction l as [|[a b] l IH]; cbn; [reflexivity | rewrite IH; reflexivity]. Qed.

Lemma filter_all_true {A} (f : A -> bool) (l : list A) :
  (forall x, In x l -> f x = true) -> filter f l = l.
Proof.
  induction l as [|x l IH]; intros H; cbn; [reflexivity|].
  rewrite (H x (or_introl eq_refl)), IH; [reflexivity|]. intros y Hy. apply H. right. exact Hy.
Qed.

(** X25: on a first run ([local-projects.json] empty) [start] writes every
    Clockify project to the file and offers them all; on the next run, with
    the same projects, the file written then selects every project again and
    nothing is rewritten. *)
Theorem X25_start_local_projects_round_trip (projects : list project) :
  projects <> [] ->
  start_projects projects [] = (Some projects, projects)
  /\ start_projects projects projects = (None, projects).
Proof.
  intros Hne. unfold start_projects. rewrite map_pair_id.
  destruct projects as [|p0 ps]; [contradiction|]. cbv beta iota.
  assert (Hf : filter (fun p => existsb (String.eqb (fst p)) (map fst (p0 :: ps))) (p0 :: ps) = p0 :: ps).
  { apply filter_all_true. intros x Hx. apply existsb_exists. exists (fst x).
    split; [apply in_map; exact Hx | apply String.eqb_refl]. }
  rewrite Hf. split; reflexivity.
Qed.

Lemma X25_witness :
  let ps := [("p1"%string, "Alpha"%string); ("p2"%string, "Beta"%string)] in
  ps <> []
  /\ start_projects ps [] = (Some ps, ps) /\ start_projects ps ps = (None, ps).
Proof.
  intros ps. assert (H : ps <> []) by discriminate.
  split; [exact H | exact (X25_start_local_projects_round_trip ps H)].
Defined.

(** X26: [start] offers exactly the Clockify projects (with Clockify's
    names) whose id [local-projects.json] lists, or all of them when the file
    is empty: an id of the file unknown to Clockify is never offered. *)
Theorem X26_start_choices (projects localProjects : list project) (p : project) :
  In p (snd (start_projects projects localProjects))
  <-> In p projects /\ (localProjects = [] \/ In (fst p) (map fst localProjects)).
Proof.
  unfold start_projects. destruct localProjects as [|l0 ls]; cbv beta iota.
  - rewrite map_pair_id. destruct projects as [|q qs]; cbn [snd].
    + split; [intros []|intros [[] _]].
    + rewrite filter_all_true.
      * split; [intros H; split; [exact H | left; reflexivity] | intros [H _]; exact H].
      * intros x Hx. apply existsb_exists. exists (fst x).
        split; [apply in_map; exact Hx | apply String.eqb_refl].
  - cbn [snd]. rewrite filter_In, existsb_exists. split.
    + intros [Hin [y [Hy Heq]]]. apply String.eqb_eq in Heq. subst y.
      split; [exact Hin | right; exact Hy].
    + intros [Hin [Habs|Hy]]; [discriminate|]. split; [exact Hin|].
      exists (fst p). split; [exact Hy | apply String.eqb_refl].
Qed.
